(** * HotsTrends: hotness engine and trending-topic extractor

    A shallow embedding of [src/utils/hotness.js] (the second module of
    [helpers.js] in this snapshot): [calculateHotness],
    [calculateDiscussionIntensity], [getWhyItsHot], [extractTrendingTopics]
    and [getTopicSizeClass]; of [formatRelativeTime] of [src/utils/helpers.js];
    and of two callers, [formatStory] of the Hacker News service and the
    size classes of [updateTrendingTopics]; followed by the properties the
    specification states about them and by further properties of the code.

    Numbers.  A JavaScript number is modelled as [NaN] or a real number:
    arithmetic is exact, so the rounding error and the overflow of IEEE
    doubles are abstracted, and the infinities are left out.  No path of the
    hotness engine or of the topic extractor divides by zero: [hoursOld] is
    at least 0.1, a word's [count] is at least 1, and the comment ratio is
    guarded by [points > 0]; [getTopicSizeClass] divides by its argument
    [maxWeight], and what is proved about it takes [maxWeight] positive.
    [Math.round] is [floor (x + 1/2)] and [Math.log10] is [ln x / ln 10].
    Where a statement turns on the very value a double operation returns (the
    score against a threshold, the digit a rounding lands on), it is made
    over an arbitrary arithmetic instead: see [Arith] and [Rounded].

    Time.  [new Date()] reads the clock; the clock's value in milliseconds
    is an explicit argument [clock] of the functions that read it.  A [Date]
    carries its time value, [None] for an invalid date ([new Date(NaN)]).

    Strings.  A string is a sequence of 8-bit code units; a template literal
    with an interpolated number is kept as its chunks, the number left as a
    number (ECMAScript's Number-to-String is not modelled). *)

From Stdlib Require Import Reals Lra Lia ZArith List String Ascii Bool.
From Stdlib Require Import Sorting.Permutation Sorting.Sorted.
Import ListNotations.

(** ** JavaScript numbers *)

Inductive number : Type :=
| NaN
| Num (r : R).

Module Number.

Definition lift2 (f : R -> R -> R) (a b : number) : number :=
  match a, b with
  | Num x, Num y => Num (f x y)
  | _, _ => NaN
  end.

Definition add : number -> number -> number := lift2 Rplus.
Definition sub : number -> number -> number := lift2 Rminus.
Definition mul : number -> number -> number := lift2 Rmult.
Definition div : number -> number -> number := lift2 Rdiv.

(** [a >= b], [a > b], [a < b]: false as soon as one side is [NaN]. *)
Definition geb (a b : number) : bool :=
  match a, b with
  | Num x, Num y => if Rge_dec x y then true else false
  | _, _ => false
  end.

Definition gtb (a b : number) : bool :=
  match a, b with
  | Num x, Num y => if Rgt_dec x y then true else false
  | _, _ => false
  end.

Definition ltb (a b : number) : bool :=
  match a, b with
  | Num x, Num y => if Rlt_dec x y then true else false
  | _, _ => false
  end.

(** ToBoolean on a number: [0] and [NaN] are falsy. *)
Definition truthy (a : number) : bool :=
  match a with
  | NaN => false
  | Num x => if Req_dec_T x 0 then false else true
  end.

Definition of_Z (z : Z) : number := Num (IZR z).
Definition of_nat (n : nat) : number := Num (INR n).

End Number.

Module Math.

(** [Math.max(a, b)]: [NaN] if either argument is [NaN]. *)
Definition max : number -> number -> number := Number.lift2 Rmax.

(** [Math.round(a)]: the nearest integer, halves towards plus infinity. *)
Definition round (a : number) : number :=
  match a with
  | NaN => NaN
  | Num x => Num (IZR (Int_part (x + 1 / 2)))
  end.

(** [Math.log10(a)]: [NaN] on [NaN] and on negative numbers.  At [0]
    JavaScript answers minus infinity, which this model does not have; the
    only call site passes [Math.max(avgPoints, 1)]. *)
Definition log10 (a : number) : number :=
  match a with
  | NaN => NaN
  | Num x => if Rlt_dec 0 x then Num (ln x / ln 10) else NaN
  end.

End Math.

(** [Math.round(a * 10) / 10], the idiom the source uses for one decimal. *)
Definition round1 (a : number) : number :=
  Number.div (Math.round (Number.mul a (Num 10))) (Num 10).

(** ** JavaScript values, as far as the guards of the source look at them *)

Inductive value : Type :=
| VUndefined
| VNull
| VBoolean (b : bool)
| VNumber (n : number)
| VString (s : string)
| VDate (tv : option Z).

(** ToBoolean. *)
Definition truthy (v : value) : bool :=
  match v with
  | VUndefined | VNull => false
  | VBoolean b => b
  | VNumber n => Number.truthy n
  | VString s => negb (String.eqb s EmptyString)
  | VDate _ => true
  end.

Definition instanceof_Date (v : value) : bool :=
  match v with
  | VDate _ => true
  | _ => false
  end.

(** The number a [Date] turns into under [now - timestamp]: its time value,
    [NaN] for an invalid date.  Only reached with a [Date]. *)
Definition timeValue (v : value) : number :=
  match v with
  | VDate (Some t) => Number.of_Z t
  | _ => NaN
  end.

(** ** Template literals *)

Inductive chunk : Type :=
| Text (s : string)
| Interp (n : number).

Definition template : Type := list chunk.

(** ** calculateHotness *)

Inductive Level : Type := fire | hot | warm | mild | cold.

(** The returned object.  [hoursOld] is [None] when the object has no such
    property. *)
Record HotnessResult : Type := mkHotness {
  score : number;
  velocity : number;
  level : Level;
  reason : option template;
  hoursOld : option number
}.

(** The local bindings of [calculateHotness], in the order of the source. *)
Module Hot.

Definition hoursOld (now : Z) (timestamp : value) : number :=
  Math.max
    (Number.div (Number.sub (Number.of_Z now) (timeValue timestamp))
                (Num (1000 * 60 * 60)))
    (Num 0.1).

Definition velocity (points hoursOld : number) : number :=
  Number.div points hoursOld.

Definition recencyMultiplier (hoursOld : number) : number :=
  Math.max (Num 1) (Number.sub (Num 3) (Number.div hoursOld (Num 4))).

Definition score (velocity recencyMultiplier : number) : number :=
  Number.mul velocity recencyMultiplier.

(** The unrounded score of a story, from the arguments. *)
Definition scoreOf (now : Z) (points : number) (timestamp : value) : number :=
  let h := hoursOld now timestamp in
  score (velocity points h) (recencyMultiplier h).

End Hot.

Definition pts_hr (icon : string) (velocity : number) : template :=
  [Text icon; Interp (Math.round velocity); Text " pts/hr"].

Definition calculateHotness (clock : Z) (points : number) (timestamp : value)
  : HotnessResult :=
  if negb (truthy timestamp) || negb (instanceof_Date timestamp) then
    {| score := Num 0; velocity := Num 0; level := cold; reason := None;
       hoursOld := None |}
  else
    let now := clock in
    let hoursOld := Hot.hoursOld now timestamp in
    let velocity := Hot.velocity points hoursOld in
    let recencyMultiplier := Hot.recencyMultiplier hoursOld in
    let score := Hot.score velocity recencyMultiplier in
    let '(level, reason) :=
      if Number.geb score (Num 100) then
        (fire, Some (pts_hr "🔥 " velocity))
      else if Number.geb score (Num 50) then
        (hot, Some (pts_hr "🔥 " velocity))
      else if Number.geb score (Num 20) then
        (warm, Some (pts_hr "📈 " velocity))
      else if Number.geb score (Num 5) then
        (mild, if Number.ltb hoursOld (Num 2) then Some [Text "🆕 Fresh"] else None)
      else
        (cold, None) in
    {| score := round1 score;
       velocity := round1 velocity;
       level := level;
       reason := reason;
       hoursOld := Some (round1 hoursOld) |}.

(** ** calculateHotness in the arithmetic of doubles

    The operations [-], [*] and [/] of the source round their result to the
    nearest double.  [Arith] carries these three operations, acting on the
    values [number]; the comparisons, [Math.max] and [Math.round] are exact on
    doubles and stay as they are.  [Rounded.calculateHotness] is the function
    of the source written over an arbitrary [Arith], binding for binding:
    what is proved of it for every [Arith] holds for the arithmetic of
    doubles, and for [calculateHotness] above, which is its instance at the
    exact arithmetic of the reals, [exact]. *)

Record Arith : Type := mkArith {
  fsub : number -> number -> number;
  fmul : number -> number -> number;
  fdiv : number -> number -> number
}.

Definition exact : Arith :=
  {| fsub := Number.sub; fmul := Number.mul; fdiv := Number.div |}.

Module Rounded.
Section Arithmetic.

Variable A : Arith.

(** [Math.round(a * 10) / 10]. *)
Definition round1 (a : number) : number :=
  fdiv A (Math.round (fmul A a (Num 10))) (Num 10).

Definition hoursOld (now : Z) (timestamp : value) : number :=
  Math.max
    (fdiv A (fsub A (Number.of_Z now) (timeValue timestamp))
            (Num (1000 * 60 * 60)))
    (Num 0.1).

Definition velocity (points hoursOld : number) : number :=
  fdiv A points hoursOld.

Definition recencyMultiplier (hoursOld : number) : number :=
  Math.max (Num 1) (fsub A (Num 3) (fdiv A hoursOld (Num 4))).

Definition score (velocity recencyMultiplier : number) : number :=
  fmul A velocity recencyMultiplier.

Definition calculateHotness (clock : Z) (points : number) (timestamp : value)
  : HotnessResult :=
  if negb (truthy timestamp) || negb (instanceof_Date timestamp) then
    mkHotness (Num 0) (Num 0) cold None None
  else
    let now := clock in
    let hoursOld := hoursOld now timestamp in
    let velocity := velocity points hoursOld in
    let recencyMultiplier := recencyMultiplier hoursOld in
    let score := score velocity recencyMultiplier in
    let '(level, reason) :=
      if Number.geb score (Num 100) then
        (fire, Some (pts_hr "🔥 " velocity))
      else if Number.geb score (Num 50) then
        (hot, Some (pts_hr "🔥 " velocity))
      else if Number.geb score (Num 20) then
        (warm, Some (pts_hr "📈 " velocity))
      else if Number.geb score (Num 5) then
        (mild, if Number.ltb hoursOld (Num 2) then Some [Text "🆕 Fresh"] else None)
      else
        (cold, None) in
    mkHotness (round1 score) (round1 velocity) level reason
              (Some (round1 hoursOld)).

End Arithmetic.
End Rounded.

(** ** calculateDiscussionIntensity *)

Inductive DiscussionLevel : Type := intense | controversial | active.

Record DiscussionResult : Type := mkDiscussion {
  dlevel : DiscussionLevel;
  dreason : template
}.

(** The arguments are numbers or [null] (a story of a source without
    engagement counters carries [null]): [None] is [null]. *)
Definition truthyN (a : option number) : bool :=
  match a with
  | None => false
  | Some n => Number.truthy n
  end.

(** ToNumber: [null] is [0]. *)
Definition toNumber (a : option number) : number :=
  match a with
  | None => Num 0
  | Some n => n
  end.

Definition calculateDiscussionIntensity (commentCount points : option number)
  : option DiscussionResult :=
  if negb (truthyN commentCount) || Number.ltb (toNumber commentCount) (Num 10)
  then None
  else
    let ratio :=
      if Number.gtb (toNumber points) (Num 0)
      then Number.div (toNumber commentCount) (toNumber points)
      else Num 0 in
    if Number.geb (toNumber commentCount) (Num 200) then
      Some {| dlevel := intense;
              dreason := [Text "💬 "; Interp (toNumber commentCount);
                          Text " comments"] |}
    else if Number.gtb ratio (Num 2) && Number.geb (toNumber commentCount) (Num 50) then
      Some {| dlevel := controversial; dreason := [Text "💬 Heated debate"] |}
    else if Number.geb (toNumber commentCount) (Num 100) then
      Some {| dlevel := active;
              dreason := [Text "💬 "; Interp (toNumber commentCount);
                          Text " discussing"] |}
    else None.

(** ** Strings: the operations of the title tokenizer *)

Definition code (c : ascii) : nat := nat_of_ascii c.

Definition between (lo hi : nat) (c : ascii) : bool :=
  Nat.leb lo (code c) && Nat.leb (code c) hi.

(** [String.prototype.toLowerCase] on 8-bit code units: [A-Z], and the
    Latin-1 capitals U+00C0..U+00DE except the multiplication sign. *)
Definition lower_char (c : ascii) : ascii :=
  if between 65 90 c then ascii_of_nat (code c + 32)
  else if between 192 222 c && negb (Nat.eqb (code c) 215)
       then ascii_of_nat (code c + 32)
  else c.

Fixpoint toLowerCase (s : string) : string :=
  match s with
  | EmptyString => EmptyString
  | String c s' => String (lower_char c) (toLowerCase s')
  end.

(** [\w] is [[A-Za-z0-9_]]. *)
Definition is_word (c : ascii) : bool :=
  between 65 90 c || between 97 122 c || between 48 57 c || Nat.eqb (code c) 95.

(** [\s] below U+0100: tab, line feed, vertical tab, form feed, carriage
    return, space and the no-break space. *)
Definition is_space (c : ascii) : bool :=
  between 9 13 c || Nat.eqb (code c) 32 || Nat.eqb (code c) 160.

(** [\d] is [[0-9]]. *)
Definition is_digit (c : ascii) : bool := between 48 57 c.

Definition is_hyphen (c : ascii) : bool := Nat.eqb (code c) 45.

(** [.replace(/[^\w\s-]/g, ' ')]. *)
Fixpoint replace_punct (s : string) : string :=
  match s with
  | EmptyString => EmptyString
  | String c s' =>
      String (if is_word c || is_space c || is_hyphen c then c else " "%char)
             (replace_punct s')
  end.

(** [.split(/\s+/)]: the pieces between the maximal runs of white space; a
    string that starts (ends) with white space yields an empty first (last)
    piece.  [cur] is the piece being read, reversed; [in_ws] says that the
    previous character was white space. *)
Fixpoint rev_string (acc s : string) : string :=
  match s with
  | EmptyString => acc
  | String c s' => rev_string (String c acc) s'
  end.

Fixpoint split_ws_from (cur : string) (in_ws : bool) (s : string) : list string :=
  match s with
  | EmptyString => [rev_string EmptyString cur]
  | String c s' =>
      if is_space c then
        if in_ws then split_ws_from EmptyString true s'
        else rev_string EmptyString cur :: split_ws_from EmptyString true s'
      else split_ws_from (String c cur) false s'
  end.

Definition split_ws (s : string) : list string := split_ws_from EmptyString false s.

(** [/^\d+$/.test(word)]. *)
Fixpoint all_digits (s : string) : bool :=
  match s with
  | EmptyString => true
  | String c s' => is_digit c && all_digits s'
  end.

Definition digits_only (s : string) : bool :=
  match s with
  | EmptyString => false
  | _ => all_digits s
  end.

(** [Set.prototype.has] for a set of strings kept as the list of its
    elements in insertion order. *)
Definition has (set : list string) (w : string) : bool :=
  existsb (String.eqb w) set.

(** [new Set(words)]: first occurrences, in order. *)
Definition Set_add (set : list string) (w : string) : list string :=
  if has set w then set else set ++ [w].

Definition Set_of (words : list string) : list string :=
  fold_left Set_add words [].

Open Scope string_scope.

Definition STOP_WORDS : list string :=
  [ "the"; "a"; "an"; "and"; "or"; "but"; "in"; "on"; "at"; "to"; "for";
    "of"; "with"; "by"; "from"; "is"; "it"; "as"; "be"; "was"; "are";
    "been"; "being"; "have"; "has"; "had"; "do"; "does"; "did"; "will";
    "would"; "could"; "should"; "may"; "might"; "must"; "shall"; "can";
    "this"; "that"; "these"; "those"; "i"; "you"; "he"; "she"; "we";
    "they"; "what"; "which"; "who"; "whom"; "when"; "where"; "why"; "how";
    "all"; "each"; "every"; "both"; "few"; "more"; "most"; "other"; "some";
    "such"; "no"; "nor"; "not"; "only"; "own"; "same"; "so"; "than"; "too";
    "very"; "just"; "about"; "into"; "through"; "during"; "before"; "after";
    "above"; "below"; "between"; "under"; "again"; "further"; "then"; "once";
    "here"; "there"; "any"; "my"; "your"; "its"; "our"; "their"; "out"; "up";
    "down"; "off"; "over"; "now"; "new"; "also"; "get"; "got"; "getting";
    "show"; "ask"; "hn"; "via"; "using"; "use"; "used"; "make"; "made";
    "video"; "pdf"; "why"; "how"; "im"; "i'm"; "dont"; "don't"; "cant";
    "can't"; "wont"; "won't"; "like"; "need"; "want"; "way"; "one"; "two";
    "first"; "last"; "year"; "years"; "day"; "days"; "time"; "still" ].

Definition TECH_KEYWORDS : list string :=
  [ "ai"; "ml"; "gpt"; "llm"; "openai"; "chatgpt"; "claude"; "gemini";
    "rust"; "python"; "javascript"; "typescript"; "golang"; "swift";
    "react"; "vue"; "angular"; "node"; "deno"; "bun";
    "linux"; "windows"; "macos"; "android"; "ios";
    "aws"; "azure"; "gcp"; "cloud"; "kubernetes"; "docker";
    "blockchain"; "crypto"; "bitcoin"; "ethereum"; "web3";
    "startup"; "vc"; "funding"; "ipo"; "acquisition";
    "apple"; "google"; "microsoft"; "meta"; "amazon"; "nvidia"; "tesla";
    "security"; "privacy"; "hack"; "breach"; "vulnerability";
    "opensource"; "github"; "gitlab";
    "database"; "sql"; "postgres"; "mongodb"; "redis";
    "api"; "sdk"; "framework"; "library" ].

Close Scope string_scope.

(** ** extractTrendingTopics *)

(** The two properties of a story the extractor reads; [None] is [null] or
    [undefined]. *)
Module Story.
Record t : Type := mk {
  title : option string;
  points : option number
}.
End Story.

(** The value kept per word in [wordCounts].  [count] starts at 0 and is only
    ever incremented by 1: a natural number. *)
Module Data.
Record t : Type := mk {
  count : nat;
  points : number
}.
End Data.

Module Topic.
Record t : Type := mk {
  word : string;
  count : nat;
  weight : number;
  isTech : bool
}.
End Topic.

(** A [Map] from strings, as the list of its entries in insertion order:
    [set] on a present key keeps the key's place. *)
Definition Map : Type := list (string * Data.t).

Fixpoint Map_get (m : Map) (k : string) : option Data.t :=
  match m with
  | [] => None
  | (k', v) :: m' => if String.eqb k' k then Some v else Map_get m' k
  end.

Fixpoint Map_set (m : Map) (k : string) (v : Data.t) : Map :=
  match m with
  | [] => [(k, v)]
  | (k', v') :: m' =>
      if String.eqb k' k then (k, v) :: m' else (k', v') :: Map_set m' k v
  end.

(** The filter of the tokenizer. *)
Definition keep_word (word : string) : bool :=
  Nat.leb 2 (String.length word) &&
  Nat.leb (String.length word) 20 &&
  negb (has STOP_WORDS word) &&
  negb (digits_only word).

(** [words] of a title. *)
Definition words_of (title : string) : list string :=
  filter keep_word (split_ws (replace_punct (toLowerCase title))).

(** [story.points || 0]. *)
Definition points_or_0 (p : option number) : number :=
  if truthyN p then toNumber p else Num 0.

(** The body of [uniqueWords.forEach]. *)
Definition count_word (story : Story.t) (wordCounts : Map) (word : string) : Map :=
  let current :=
    match Map_get wordCounts word with
    | Some d => d
    | None => {| Data.count := 0; Data.points := Num 0 |}
    end in
  let current :=
    {| Data.count := Data.count current + 1;
       Data.points := Number.add (Data.points current)
                                 (points_or_0 (Story.points story)) |} in
  Map_set wordCounts word current.

(** The body of [stories.forEach]. *)
Definition count_story (wordCounts : Map) (story : Story.t) : Map :=
  match Story.title story with
  | None => wordCounts
  | Some title =>
      if String.eqb title EmptyString then wordCounts
      else
        let words := words_of title in
        let uniqueWords := Set_of words in
        fold_left (count_word story) uniqueWords wordCounts
  end.

Definition wordCounts_of (stories : list Story.t) : Map :=
  fold_left count_story stories [].

(** The local [weight] of the [map] callback, before it is rounded. *)
Definition weight_of (word : string) (data : Data.t) : number :=
  let avgPoints := Number.div (Data.points data) (Number.of_nat (Data.count data)) in
  let techBonus := if has TECH_KEYWORDS word then Num 1.5 else Num 1 in
  Number.mul
    (Number.mul (Number.of_nat (Data.count data))
                (Number.add (Num 1) (Math.log10 (Math.max avgPoints (Num 1)))))
    techBonus.

Definition to_topic (entry : string * Data.t) : Topic.t :=
  let '(word, data) := entry in
  let weight := weight_of word data in
  {| Topic.word := word;
     Topic.count := Data.count data;
     Topic.weight := round1 weight;
     Topic.isTech := has TECH_KEYWORDS word |}.

(** [Array.prototype.sort] with a comparator.  The sort is stable, and for a
    consistent comparator its result does not depend on the engine's
    algorithm; it is written here as an insertion sort: an element moves
    behind exactly the elements the comparator puts strictly before it. *)
Section Sort.
Variable A : Type.
Variable cmp : A -> A -> number.

Fixpoint sort_insert (a : A) (l : list A) : list A :=
  match l with
  | [] => [a]
  | b :: l' =>
      if Number.gtb (cmp a b) (Num 0) then b :: sort_insert a l'
      else a :: b :: l'
  end.

Definition Array_sort (l : list A) : list A :=
  fold_right sort_insert [] l.
End Sort.

Arguments sort_insert {A} cmp a l.
Arguments Array_sort {A} cmp l.

(** [.slice(0, e)] for an integer [e]: a negative [e] counts from the end. *)
Definition Array_slice0 {A : Type} (l : list A) (e : Z) : list A :=
  let len := Z.of_nat (List.length l) in
  let stop := if Z.ltb e 0 then Z.max (len + e) 0 else Z.min e len in
  firstn (Z.to_nat stop) l.

(** The topics before [slice]: mapped, filtered and sorted. *)
Definition ranked_topics (stories : list Story.t) : list Topic.t :=
  Array_sort
    (fun a b => Number.sub (Topic.weight b) (Topic.weight a))
    (filter (fun topic => Nat.leb 2 (Topic.count topic))
            (map to_topic (wordCounts_of stories))).

(** [limit] is an integer, or [None] for an omitted argument. *)
Definition extractTrendingTopics (stories : list Story.t) (limit : option Z)
  : list Topic.t :=
  let limit := match limit with Some l => l | None => 15%Z end in
  Array_slice0 (ranked_topics stories) limit.

(** ** getTopicSizeClass *)

Inductive SizeClass : Type := xs | sm | md | lg | xl.

(** [maxWeight] is taken to be non-zero: the quotient by zero is an infinity
    or [NaN], which this model does not have.  The caller passes the weight of
    a returned topic, or 1. *)
Definition getTopicSizeClass (weight maxWeight : number) : SizeClass :=
  let ratio := Number.div weight maxWeight in
  if Number.geb ratio (Num 0.8) then xl
  else if Number.geb ratio (Num 0.6) then lg
  else if Number.geb ratio (Num 0.4) then md
  else if Number.geb ratio (Num 0.2) then sm
  else xs.

(** ** updateTrendingTopics (components/TrendingTopics.js)

    The topics of the cloud and the size class each one is drawn with; the
    markup built from them and the listeners are not modelled. *)
Definition updateTrendingTopics_classes (stories : list Story.t)
  : list (Topic.t * SizeClass) :=
  let topics := extractTrendingTopics stories (Some 15%Z) in
  let maxWeight :=
    match topics with
    | topic0 :: _ => Topic.weight topic0
    | [] => Num 1
    end in
  map (fun topic => (topic, getTopicSizeClass (Topic.weight topic) maxWeight))
      topics.

(** ** formatRelativeTime (utils/helpers.js) *)

(** [isNaN(date)] on a [Date]: its time value is [NaN]. *)
Definition isNaN_Date (v : value) : bool :=
  match v with
  | VDate None => true
  | _ => false
  end.

(** The time value of a valid [Date], in milliseconds. *)
Definition getTime (v : value) : Z :=
  match v with
  | VDate (Some t) => t
  | _ => 0%Z
  end.

(** [`${n}unit`]. *)
Definition ago (n : Z) (unit : string) : template :=
  [Interp (Number.of_Z n); Text unit].

(** Time values are integers, so [now - date] is an integer and
    [Math.floor(a / b)] is the floor division of integers. *)
Definition formatRelativeTime (clock : Z) (date : value) : template :=
  if negb (truthy date) || negb (instanceof_Date date) || isNaN_Date date then
    [Text ""%string]
  else
    let now := clock in
    let diffInSeconds := ((now - getTime date) / 1000)%Z in
    if (diffInSeconds <? 60)%Z then [Text "just now"%string]
    else
      let diffInMinutes := (diffInSeconds / 60)%Z in
      if (diffInMinutes <? 60)%Z then ago diffInMinutes "m ago"
      else
        let diffInHours := (diffInMinutes / 60)%Z in
        if (diffInHours <? 24)%Z then ago diffInHours "h ago"
        else
          let diffInDays := (diffInHours / 24)%Z in
          if (diffInDays <? 7)%Z then ago diffInDays "d ago"
          else
            let diffInWeeks := (diffInDays / 7)%Z in
            if (diffInWeeks <? 4)%Z then ago diffInWeeks "w ago"
            else
              let diffInMonths := (diffInDays / 30)%Z in
              if (diffInMonths <? 12)%Z then ago diffInMonths "mo ago"
              else
                let diffInYears := (diffInDays / 365)%Z in
                ago diffInYears "y ago".

(** ** formatStory (services/hackerNewsService.js) *)

(** An item of the Hacker News API, as far as [formatStory] reads it; [None]
    is a missing property.  [time] is a number of seconds, an integer. *)
Module Raw.
Record t : Type := mk {
  id : number;
  title : option string;
  url : option string;
  author : option string;
  score : option number;
  descendants : option number;
  time : option Z
}.
End Raw.

Module Formatted.
Record t : Type := mk {
  id : number;
  rank : nat;
  title : string;
  url : template;
  domain : string;
  author : string;
  points : number;
  commentCount : number;
  commentsUrl : template;
  timestamp : value;
  source : string;
  isHackerNews : bool;
  hotness : HotnessResult;
  discussion : option DiscussionResult
}.
End Formatted.

(** [new Date(ms)] for an integer [ms]: an invalid date beyond 8.64e15. *)
Definition Date_of_ms (ms : Z) : value :=
  VDate (if (Z.abs ms <=? 8640000000000000)%Z then Some ms else None).

(** [s || fallback] for a string or missing [s]. *)
Definition string_or (s : option string) (fallback : string) : string :=
  match s with
  | Some x => if String.eqb x EmptyString then fallback else x
  | None => fallback
  end.

Section HackerNews.

(** [extractDomain] parses its argument with [URL]: a parameter here. *)
Variable extractDomain : option string -> string.

(** [clock0] is the clock when [formatStory] reads it for a story without
    [time], [clock] when [calculateHotness] reads it afterwards. *)
Definition formatStory (clock0 clock : Z) (story : Raw.t) (rank : nat)
  : Formatted.t :=
  let timestamp :=
    match Raw.time story with
    | Some t => if (t =? 0)%Z then VDate (Some clock0) else Date_of_ms (t * 1000)
    | None => VDate (Some clock0)
    end in
  let points := points_or_0 (Raw.score story) in
  let commentCount := points_or_0 (Raw.descendants story) in
  let hotness := calculateHotness clock points timestamp in
  let discussion :=
    calculateDiscussionIntensity (Some commentCount) (Some points) in
  let item := [Text "https://news.ycombinator.com/item?id="%string;
               Interp (Raw.id story)] in
  {| Formatted.id := Raw.id story;
     Formatted.rank := rank;
     Formatted.title := string_or (Raw.title story) "Untitled";
     Formatted.url :=
       match Raw.url story with
       | Some u => if String.eqb u EmptyString then item else [Text u]
       | None => item
       end;
     Formatted.domain := extractDomain (Raw.url story);
     Formatted.author := string_or (Raw.author story) "anonymous";
     Formatted.points := points;
     Formatted.commentCount := commentCount;
     Formatted.commentsUrl := item;
     Formatted.timestamp := timestamp;
     Formatted.source := "Hacker News";
     Formatted.isHackerNews := true;
     Formatted.hotness := hotness;
     Formatted.discussion := discussion |}.

End HackerNews.

(** ** getWhyItsHot *)

(** ToBoolean on the string of a template literal: only the empty string is
    falsy, and the string of a number is never empty. *)
Definition chunk_empty (c : chunk) : bool :=
  match c with
  | Text s => String.eqb s EmptyString
  | Interp _ => false
  end.

Definition template_truthy (t : template) : bool := negb (forallb chunk_empty t).

(** ToBoolean on a property that holds a string, [null] or [undefined]. *)
Definition truthy_reason (r : option template) : bool :=
  match r with
  | Some t => template_truthy t
  | None => false
  end.

(** [hotness] and [discussion] are the two properties of the story that are
    read; [None] is [null] or [undefined] (an article of NewsAPI has neither). *)
Definition getWhyItsHot (hotness : option HotnessResult)
                        (discussion : option DiscussionResult)
  : option template :=
  let hotness_reason :=
    match hotness with
    | Some h => reason h
    | None => None
    end in
  let discussion_reason :=
    match discussion with
    | Some d => Some (dreason d)
    | None => None
    end in
  if truthy_reason hotness_reason then hotness_reason
  else if truthy_reason discussion_reason then discussion_reason
  else None.

(** ** The specification's reading of the hotness engine

    The formulas of the specification over the reals, and the level and the
    reason as functions of the unrounded values; the theorems below relate
    them to the code. *)

Open Scope R_scope.

Definition hoursR (clock tv : Z) : R :=
  Rmax ((IZR clock - IZR tv) / 3600000) 0.1.

Definition multR (h : R) : R := Rmax 1 (3 - h / 4).

Definition scoreR (p h : R) : R := p / h * multR h.

Definition levelOf (s : number) : Level :=
  if Number.geb s (Num 100) then fire
  else if Number.geb s (Num 50) then hot
  else if Number.geb s (Num 20) then warm
  else if Number.geb s (Num 5) then mild
  else cold.

(** The levels from coldest to hottest. *)
Definition rank (l : Level) : nat :=
  match l with
  | cold => 0 | mild => 1 | warm => 2 | hot => 3 | fire => 4
  end.

Definition sentinel : HotnessResult :=
  {| score := Num 0; velocity := Num 0; level := cold; reason := None;
     hoursOld := None |}.

(** ** The specification's reading of the discussion signal *)

(** [ratio = commentCount / points], 0 when [points <= 0]. *)
Definition ratioR (c p : R) : R := if Rlt_dec 0 p then c / p else 0.

Definition intense_of (c : R) : DiscussionResult :=
  {| dlevel := intense;
     dreason := [Text "💬 "%string; Interp (Num c); Text " comments"%string] |}.

Definition controversial_result : DiscussionResult :=
  {| dlevel := controversial; dreason := [Text "💬 Heated debate"%string] |}.

Definition active_of (c : R) : DiscussionResult :=
  {| dlevel := active;
     dreason := [Text "💬 "%string; Interp (Num c); Text " discussing"%string] |}.

(** ** The specification's reading of the topic extractor *)

(** The story's title contains the word: the word is one of the tokens of
    the title. *)
Definition mentions (word : string) (story : Story.t) : bool :=
  match Story.title story with
  | Some title => has (words_of title) word
  | None => false
  end.

(** The number of stories of the batch that contain the word. *)
Definition stories_with (word : string) (stories : list Story.t) : nat :=
  List.length (filter (mentions word) stories).

(** [story.points || 0] as a real. *)
Definition pointsR (story : Story.t) : R :=
  match points_or_0 (Story.points story) with
  | Num x => x
  | NaN => 0
  end.

(** The sum of the points of the stories that contain the word. *)
Definition points_with (word : string) (stories : list Story.t) : R :=
  fold_right Rplus 0 (map pointsR (filter (mentions word) stories)).

(** What [wordCounts] holds for a word, with the defaults of
    [wordCounts.get(word) || { count: 0, points: 0 }]. *)
Definition Map_count (m : Map) (w : string) : nat :=
  match Map_get m w with
  | Some d => Data.count d
  | None => 0
  end.

Definition Map_points (m : Map) (w : string) : number :=
  match Map_get m w with
  | Some d => Data.points d
  | None => Num 0
  end.

Definition keys (m : Map) : list string := map fst m.

(** The topics that pass the filter, in the insertion order of [wordCounts],
    with the weights the [map] callback gave them. *)
Definition qualifying_topics (stories : list Story.t) : list Topic.t :=
  filter (fun topic => Nat.leb 2 (Topic.count topic))
         (map to_topic (wordCounts_of stories)).

Definition weightR (t : Topic.t) : R :=
  match Topic.weight t with
  | Num x => x
  | NaN => 0
  end.

(** The formula of the weight over the reals. *)
Definition weight_formula (count : nat) (points : R) (techBonus : R) : R :=
  INR count * (1 + ln (Rmax (points / INR count) 1) / ln 10) * techBonus.

Definition one_decimal (x : R) : R := IZR (Int_part (x * 10 + 1 / 2)) / 10.

(** Every entry of the map has been counted at least once. *)
Definition Map_pos (m : Map) : Prop :=
  forall w d, Map_get m w = Some d -> (1 <= Data.count d)%nat.

(** The comparator of the sort, [(a, b) => b.weight - a.weight]. *)
Definition by_weight (a b : Topic.t) : number :=
  Number.sub (Topic.weight b) (Topic.weight a).

(** The topics whose returned weight is [x]. *)
Definition weighs (x : R) (t : Topic.t) : bool :=
  if Req_dec_T (weightR t) x then true else false.

(** The argument [limit] after the default has been applied. *)
Definition limit_or_15 (limit : option Z) : Z :=
  match limit with
  | Some l => l
  | None => 15%Z
  end.

(** Every weight of the list is a number, not [NaN]. *)
Definition Nums (l : list Topic.t) : Prop :=
  Forall (fun t => Topic.weight t = Num (weightR t)) l.

(** The size classes from smallest to largest. *)
Definition size_rank (c : SizeClass) : nat :=
  match c with
  | xs => 0 | sm => 1 | md => 2 | lg => 3 | xl => 4
  end.

(** The story has a title that is not the empty string. *)
Definition titled (story : Story.t) : bool :=
  match Story.title story with
  | Some title => negb (String.eqb title EmptyString)
  | None => false
  end.

(** The story with its title in lower case. *)
Definition lower_title (story : Story.t) : Story.t :=
  {| Story.title := option_map toLowerCase (Story.title story);
     Story.points := Story.points story |}.

Fixpoint string_forall (p : ascii -> bool) (s : string) : bool :=
  match s with
  | EmptyString => true
  | String c s' => p c && string_forall p s'
  end.

(** [a-z], [0-9], the underscore and the hyphen. *)
Definition is_token_char (c : ascii) : bool :=
  between 97 122 c || between 48 57 c || Nat.eqb (code c) 95 || Nat.eqb (code c) 45.

(** * Properties *)

(** ** Numbers *)

Lemma geb_true (x y : R) : Number.geb (Num x) (Num y) = true <-> y <= x.
Proof.
  unfold Number.geb. destruct (Rge_dec x y); split; intros; try lra; discriminate.
Qed.

Lemma geb_false (x y : R) : Number.geb (Num x) (Num y) = false <-> x < y.
Proof.
  unfold Number.geb. destruct (Rge_dec x y); split; intros; try lra; discriminate.
Qed.

Lemma gtb_true (x y : R) : Number.gtb (Num x) (Num y) = true <-> y < x.
Proof.
  unfold Number.gtb. destruct (Rgt_dec x y); split; intros; try lra; discriminate.
Qed.

Lemma gtb_false (x y : R) : Number.gtb (Num x) (Num y) = false <-> x <= y.
Proof.
  unfold Number.gtb. destruct (Rgt_dec x y); split; intros; try lra; discriminate.
Qed.

Lemma ltb_true (x y : R) : Number.ltb (Num x) (Num y) = true <-> x < y.
Proof.
  unfold Number.ltb. destruct (Rlt_dec x y); split; intros; try lra; discriminate.
Qed.

Lemma ltb_false (x y : R) : Number.ltb (Num x) (Num y) = false <-> y <= x.
Proof.
  unfold Number.ltb. destruct (Rlt_dec x y); split; intros; try lra; discriminate.
Qed.

Lemma truthy_Num (x : R) : Number.truthy (Num x) = true <-> x <> 0.
Proof.
  unfold Number.truthy. destruct (Req_dec_T x 0); split; intros; try easy.
Qed.

(** [Math.round] lands on [z] exactly when [z - 1/2 <= x < z + 1/2]. *)
Lemma round_at (x : R) (z : Z) :
  IZR z - 1 / 2 <= x < IZR z + 1 / 2 -> Math.round (Num x) = Num (IZR z).
Proof.
  intros H. unfold Math.round. f_equal. f_equal. symmetry.
  apply Int_part_spec. lra.
Qed.

Lemma round1_at (x : R) (z : Z) :
  IZR z - 1 / 2 <= x * 10 < IZR z + 1 / 2 -> round1 (Num x) = Num (IZR z / 10).
Proof.
  intros H. unfold round1. cbn [Number.mul Number.lift2].
  rewrite (round_at _ _ H). reflexivity.
Qed.

Lemma Int_part_le (x y : R) : x <= y -> (Int_part x <= Int_part y)%Z.
Proof.
  intros H.
  destruct (base_Int_part x) as [Hx1 Hx2], (base_Int_part y) as [Hy1 Hy2].
  assert (IZR (Int_part x) < IZR (Int_part y) + 1) by lra.
  rewrite <- plus_IZR in H0. apply lt_IZR in H0. lia.
Qed.

(** One-decimal rounding is monotone. *)
Lemma round1_le (x y : R) :
  x <= y ->
  exists a b, round1 (Num x) = Num a /\ round1 (Num y) = Num b /\ a <= b.
Proof.
  intros H. unfold round1; cbn.
  do 2 eexists. split; [reflexivity|]. split; [reflexivity|].
  assert (Hi : (Int_part (x * 10 + 1 / 2) <= Int_part (y * 10 + 1 / 2))%Z)
    by (apply Int_part_le; lra).
  apply IZR_le in Hi. lra.
Qed.

(** ** The shape of [calculateHotness] *)

Lemma hoursOld_valid (clock tv : Z) :
  Hot.hoursOld clock (VDate (Some tv)) = Num (hoursR clock tv).
Proof.
  unfold Hot.hoursOld, hoursR. cbn. do 2 f_equal. lra.
Qed.

Lemma hoursR_floor (clock tv : Z) : 0.1 <= hoursR clock tv.
Proof. unfold hoursR. apply Rmax_r. Qed.

Lemma multR_ge_1 (h : R) : 1 <= multR h.
Proof. unfold multR. apply Rmax_l. Qed.

Lemma recencyMultiplier_Num (h : R) :
  Hot.recencyMultiplier (Num h) = Num (multR h).
Proof. reflexivity. Qed.

Lemma scoreOf_valid (clock : Z) (p : R) (tv : Z) :
  Hot.scoreOf clock (Num p) (VDate (Some tv)) = Num (scoreR p (hoursR clock tv)).
Proof.
  unfold Hot.scoreOf. rewrite hoursOld_valid. reflexivity.
Qed.

(** On a [Date] the guard is passed, and the result is assembled from the
    unrounded locals. *)
Lemma calculateHotness_date (clock : Z) (points : number) (tv : option Z) :
  let h := Hot.hoursOld clock (VDate tv) in
  let v := Hot.velocity points h in
  let s := Hot.scoreOf clock points (VDate tv) in
  let r := calculateHotness clock points (VDate tv) in
  score r = round1 s /\ velocity r = round1 v /\ hoursOld r = Some (round1 h) /\
  level r = levelOf s /\
  reason r =
    match levelOf s with
    | fire | hot => Some (pts_hr "🔥 " v)
    | warm => Some (pts_hr "📈 " v)
    | mild => if Number.ltb h (Num 2) then Some [Text "🆕 Fresh"%string] else None
    | cold => None
    end.
Proof.
  cbv zeta. unfold calculateHotness, levelOf, Hot.scoreOf. cbn [truthy instanceof_Date negb orb].
  repeat match goal with
         | |- context [if Number.geb ?a ?b then _ else _] =>
             destruct (Number.geb a b)
         end; cbn; repeat split; reflexivity.
Qed.

Lemma calculateHotness_not_date (clock : Z) (points : number) (timestamp : value) :
  truthy timestamp = false \/ instanceof_Date timestamp = false ->
  calculateHotness clock points timestamp = sentinel.
Proof.
  intros [H | H]; unfold calculateHotness; rewrite H; cbn.
  - reflexivity.
  - rewrite orb_true_r. reflexivity.
Qed.

(** Evaluation of [Rmax] at arguments that linear arithmetic can compare. *)
Ltac rmax :=
  repeat match goal with
         | |- context [Rmax ?a ?b] =>
             first [ rewrite (Rmax_left a b) by lra
                   | rewrite (Rmax_right a b) by lra ]
         end.

Lemma levelOf_mono (x y : R) :
  x <= y -> (rank (levelOf (Num x)) <= rank (levelOf (Num y)))%nat.
Proof.
  intros H. unfold levelOf.
  repeat match goal with
         | |- context [Number.geb ?a ?b] =>
             let E := fresh "E" in
             destruct (Number.geb a b) eqn:E;
             [apply geb_true in E | apply geb_false in E]
         end; cbn; try lia; lra.
Qed.

Lemma levelOf_NaN : levelOf NaN = cold.
Proof. reflexivity. Qed.

Lemma round1_Num (x : R) :
  round1 (Num x) = Num (IZR (Int_part (x * 10 + 1 / 2)) / 10).
Proof. reflexivity. Qed.

(** ** C1 *)

(** [null] and [undefined], and every value that is not a [Date], give the
    sentinel whatever [points] is. *)
Lemma calculateHotness_missing (clock : Z) (points : number) :
  calculateHotness clock points VNull = sentinel /\
  calculateHotness clock points VUndefined = sentinel.
Proof. split; reflexivity. Qed.

(** C1 (fails on the code): for an invalid [Date] the guard
    [!timestamp || !(timestamp instanceof Date)] is passed, since a [Date]
    object is truthy and an instance of [Date]; [now - timestamp] is [NaN] and
    the result carries [NaN] for score, velocity and hoursOld.  It is not the
    sentinel [{score: 0, velocity: 0, level: 'cold', reason: null}]. *)
Theorem C1_invalid_date_yields_NaN (clock : Z) (points : number) :
  calculateHotness clock points (VDate None) =
    {| score := NaN; velocity := NaN; level := cold; reason := None;
       hoursOld := Some NaN |} /\
  calculateHotness clock points (VDate None) <> sentinel.
Proof.
  assert (E : calculateHotness clock points (VDate None) =
              {| score := NaN; velocity := NaN; level := cold; reason := None;
                 hoursOld := Some NaN |}).
  { unfold calculateHotness, Hot.hoursOld, Hot.velocity. cbn.
    destruct points; reflexivity. }
  split; [exact E|]. rewrite E. unfold sentinel. discriminate.
Qed.

(** ** C10 *)

(** C10: when the timestamp is missing (falsy) or not a [Date], the returned
    object is the four-field sentinel, without [hoursOld]; on the normal path
    (a [Date]) the object has the [hoursOld] property. *)
Theorem C10_sentinel_has_no_hoursOld (clock : Z) (points : number) (timestamp : value) :
  (truthy timestamp = false \/ instanceof_Date timestamp = false ->
   calculateHotness clock points timestamp =
     {| score := Num 0; velocity := Num 0; level := cold; reason := None;
        hoursOld := None |} /\
   hoursOld (calculateHotness clock points timestamp) = None) /\
  (truthy timestamp = true /\ instanceof_Date timestamp = true ->
   hoursOld (calculateHotness clock points timestamp) <> None).
Proof.
  split.
  - intros H. rewrite (calculateHotness_not_date clock points timestamp H).
    split; reflexivity.
  - intros [_ H]. destruct timestamp; try discriminate.
    destruct (calculateHotness_date clock points tv) as (_ & _ & E & _).
    cbv zeta in E. rewrite E. discriminate.
Qed.

Lemma C10_witness :
  (truthy (VString "yesterday") = false \/
   instanceof_Date (VString "yesterday") = false) /\
  hoursOld (calculateHotness 1000 (Num 42) (VString "yesterday")) = None.
Proof.
  split.
  - right. reflexivity.
  - apply (C10_sentinel_has_no_hoursOld 1000 (Num 42) (VString "yesterday")).
    right. reflexivity.
Defined.

(** ** C2 *)

(** [calculateHotness] is [Rounded.calculateHotness] at the exact
    arithmetic. *)
Lemma calculateHotness_exact (clock : Z) (points : number) (timestamp : value) :
  Rounded.calculateHotness exact clock points timestamp =
  calculateHotness clock points timestamp.
Proof. reflexivity. Qed.

(** On a [Date], in any arithmetic: the result is assembled from the
    unrounded locals, the level and the reason being read off the unrounded
    score. *)
Lemma Rounded_calculateHotness_date
  (A : Arith) (clock : Z) (points : number) (tv : option Z) :
  let h := Rounded.hoursOld A clock (VDate tv) in
  let v := Rounded.velocity A points h in
  let s := Rounded.score A v (Rounded.recencyMultiplier A h) in
  let r := Rounded.calculateHotness A clock points (VDate tv) in
  score r = Rounded.round1 A s /\ velocity r = Rounded.round1 A v /\
  hoursOld r = Some (Rounded.round1 A h) /\
  level r = levelOf s /\
  reason r =
    match levelOf s with
    | fire | hot => Some (pts_hr "🔥 " v)
    | warm => Some (pts_hr "📈 " v)
    | mild => if Number.ltb h (Num 2) then Some [Text "🆕 Fresh"%string] else None
    | cold => None
    end.
Proof.
  cbv zeta. unfold Rounded.calculateHotness, levelOf.
  cbn [truthy instanceof_Date negb orb].
  repeat match goal with
         | |- context [if Number.geb ?a ?b then _ else _] =>
             destruct (Number.geb a b)
         end; cbn; repeat split; reflexivity.
Qed.

(** C2: for a valid timestamp the level and the reason are decided by the
    unrounded score, the value of [velocity * recencyMultiplier] as the
    program computes it, against 100, 50, 20 and 5, the first threshold
    reached winning: a score of exactly 100 is [fire], any score from 50 up to
    but not including 100 is [hot], and so on at each of the four thresholds.
    The statement is for every arithmetic, that of doubles included, and for
    every [points]. *)
Theorem C2_levels_by_thresholds
  (A : Arith) (clock : Z) (points : number) (tv : Z) :
  let h := Rounded.hoursOld A clock (VDate (Some tv)) in
  let v := Rounded.velocity A points h in
  let s := Rounded.score A v (Rounded.recencyMultiplier A h) in
  let r := Rounded.calculateHotness A clock points (VDate (Some tv)) in
  (forall x : R, s = Num x ->
     (100 <= x ->
      level r = fire /\
      reason r = Some [Text "🔥 "; Interp (Math.round v); Text " pts/hr"]) /\
     (50 <= x < 100 ->
      level r = hot /\
      reason r = Some [Text "🔥 "; Interp (Math.round v); Text " pts/hr"]) /\
     (20 <= x < 50 ->
      level r = warm /\
      reason r = Some [Text "📈 "; Interp (Math.round v); Text " pts/hr"]) /\
     (5 <= x < 20 ->
      level r = mild /\
      (forall a, h = Num a -> a < 2 -> reason r = Some [Text "🆕 Fresh"]) /\
      (forall a, h = Num a -> 2 <= a -> reason r = None) /\
      (h = NaN -> reason r = None)) /\
     (x < 5 -> level r = cold /\ reason r = None)) /\
  (s = NaN -> level r = cold /\ reason r = None).
Proof.
  intros h v s r.
  destruct (Rounded_calculateHotness_date A clock points (Some tv))
    as (_ & _ & _ & El & Er).
  cbv zeta in El, Er. fold h in El, Er. fold v in El, Er. fold s in El, Er.
  fold r in El, Er.
  split.
  - intros x Ex. rewrite Ex in El, Er. unfold levelOf in El, Er.
    repeat match type of El with
           | context [Number.geb ?a ?b] =>
               let E := fresh "E" in
               destruct (Number.geb a b) eqn:E;
               [apply geb_true in E | apply geb_false in E]
           end;
    repeat split; intros; try lra; try assumption;
    try (rewrite Er;
         match goal with
         | H : h = _ |- _ => rewrite H
         end;
         first [ reflexivity
               | rewrite (proj2 (ltb_true _ _)) by assumption; reflexivity
               | rewrite (proj2 (ltb_false _ _)) by assumption; reflexivity ]).
  - intros En. rewrite En in El, Er. split; assumption.
Qed.

Lemma C2_witness :
  Rounded.score exact
    (Rounded.velocity exact (Num 1000)
       (Rounded.hoursOld exact 36000000 (VDate (Some 0%Z))))
    (Rounded.recencyMultiplier exact
       (Rounded.hoursOld exact 36000000 (VDate (Some 0%Z)))) = Num 100 /\
  100 <= 100 /\
  level (Rounded.calculateHotness exact 36000000 (Num 1000) (VDate (Some 0%Z))) =
    fire.
Proof.
  assert (E : Rounded.score exact
                (Rounded.velocity exact (Num 1000)
                   (Rounded.hoursOld exact 36000000 (VDate (Some 0%Z))))
                (Rounded.recencyMultiplier exact
                   (Rounded.hoursOld exact 36000000 (VDate (Some 0%Z)))) =
              Num 100).
  { change (Hot.scoreOf 36000000 (Num 1000) (VDate (Some 0%Z)) = Num 100).
    rewrite scoreOf_valid. unfold scoreR, hoursR, multR. rmax. f_equal. lra. }
  split; [exact E|]. split; [lra|].
  destruct (C2_levels_by_thresholds exact 36000000 (Num 1000) 0) as [H _].
  destruct (H 100 E) as (Hf & _). apply Hf. lra.
Defined.

Lemma level_valid (clock : Z) (p : R) (tv : Z) :
  level (calculateHotness clock (Num p) (VDate (Some tv))) =
  levelOf (Num (scoreR p (hoursR clock tv))).
Proof.
  destruct (calculateHotness_date clock (Num p) (Some tv)) as (_ & _ & _ & El & _).
  cbv zeta in El. rewrite El, scoreOf_valid. reflexivity.
Qed.

Lemma score_valid (clock : Z) (p : R) (tv : Z) :
  score (calculateHotness clock (Num p) (VDate (Some tv))) =
  round1 (Num (scoreR p (hoursR clock tv))).
Proof.
  destruct (calculateHotness_date clock (Num p) (Some tv)) as (Es & _).
  cbv zeta in Es. rewrite Es, scoreOf_valid. reflexivity.
Qed.

(** Evaluation of the comparisons at arguments that linear arithmetic can
    compare. *)
Ltac cmp_eval :=
  repeat match goal with
         | |- context [Number.geb (Num ?a) (Num ?b)] =>
             first [ rewrite (proj2 (geb_true a b)) by lra
                   | rewrite (proj2 (geb_false a b)) by lra ]
         | |- context [Number.gtb (Num ?a) (Num ?b)] =>
             first [ rewrite (proj2 (gtb_true a b)) by lra
                   | rewrite (proj2 (gtb_false a b)) by lra ]
         | |- context [Number.ltb (Num ?a) (Num ?b)] =>
             first [ rewrite (proj2 (ltb_true a b)) by lra
                   | rewrite (proj2 (ltb_false a b)) by lra ]
         end.

Ltac level_eval :=
  rewrite level_valid; unfold scoreR, hoursR, multR; rmax;
  unfold levelOf; cmp_eval; reflexivity.

(** Both sides of the four thresholds, on a story that is ten hours old (the
    multiplier is 1, so the unrounded score is [points / 10]): scores 100 and
    99.999, 50 and 49.999, 20 and 19.999, 5 and 4.999. *)
Example hotness_threshold_sides :
  let lv p := level (calculateHotness 36000000 (Num p) (VDate (Some 0%Z))) in
  Hot.scoreOf 36000000 (Num 1000) (VDate (Some 0%Z)) = Num 100 /\
  Hot.scoreOf 36000000 (Num 999.99) (VDate (Some 0%Z)) = Num 99.999 /\
  lv 1000 = fire /\ lv 999.99 = hot /\
  lv 500 = hot /\ lv 499.99 = warm /\
  lv 200 = warm /\ lv 199.99 = mild /\
  lv 50 = mild /\ lv 49.99 = cold.
Proof.
  cbv zeta.
  repeat split; try level_eval;
    rewrite scoreOf_valid; unfold scoreR, hoursR, multR; rmax; f_equal; lra.
Qed.

(** ** C3 *)

(** C3 (as stated, refuted): with the timestamp equal to the clock the
    multiplier is [3 - 0.1 / 4 = 2.975], not 3: ten points give a velocity of
    100 and a score of 297.5. *)
Lemma C3_counterexample :
  Hot.recencyMultiplier (Hot.hoursOld 1000 (VDate (Some 1000%Z))) = Num 2.975 /\
  Hot.recencyMultiplier (Hot.hoursOld 1000 (VDate (Some 1000%Z))) <> Num 3 /\
  Hot.scoreOf 1000 (Num 10) (VDate (Some 1000%Z)) = Num 297.5.
Proof.
  assert (E : Hot.recencyMultiplier (Hot.hoursOld 1000 (VDate (Some 1000%Z)))
              = Num 2.975).
  { rewrite hoursOld_valid, recencyMultiplier_Num. unfold hoursR, multR. rmax.
    f_equal. lra. }
  split; [exact E|]. split.
  - rewrite E. intros H. injection H. lra.
  - rewrite scoreOf_valid. unfold scoreR, hoursR, multR. rmax. f_equal. lra.
Qed.

(** C3 (amended): for every [points > 0], a timestamp equal to the clock
    gives [hoursOld = 0.1] (the floor) and a multiplier of
    [3 - 0.1 / 4 = 2.975], which is the largest value the multiplier takes on
    any timestamp, the floor keeping it below 3. *)
Theorem C3_now_hits_floor (clock : Z) (p : R) :
  0 < p ->
  let now := VDate (Some clock) in
  Hot.hoursOld clock now = Num 0.1 /\
  hoursOld (calculateHotness clock (Num p) now) = Some (Num 0.1) /\
  Hot.recencyMultiplier (Hot.hoursOld clock now) = Num 2.975 /\
  Hot.scoreOf clock (Num p) now = Num (p / 0.1 * 2.975) /\
  (forall tv : Z, exists m : R,
      Hot.recencyMultiplier (Hot.hoursOld clock (VDate (Some tv))) = Num m /\
      1 <= m <= 2.975).
Proof.
  intros _ now.
  assert (Eh : hoursR clock clock = 0.1).
  { unfold hoursR. replace (IZR clock - IZR clock) with 0 by lra. rmax. reflexivity. }
  assert (Em : multR 0.1 = 2.975) by (unfold multR; rmax; lra).
  repeat split.
  - unfold now. rewrite hoursOld_valid, Eh. reflexivity.
  - destruct (calculateHotness_date clock (Num p) (Some clock)) as (_ & _ & E & _).
    cbv zeta in E. unfold now. rewrite E, hoursOld_valid, Eh.
    f_equal. rewrite (round1_at 0.1 1); [f_equal; lra | lra].
  - unfold now. rewrite hoursOld_valid, Eh, recencyMultiplier_Num, Em. reflexivity.
  - unfold now. rewrite scoreOf_valid, Eh. unfold scoreR. rewrite Em. reflexivity.
  - intros tv. exists (multR (hoursR clock tv)).
    rewrite hoursOld_valid, recencyMultiplier_Num. split; [reflexivity|].
    split; [apply multR_ge_1|].
    pose proof (hoursR_floor clock tv) as Hf.
    unfold multR. apply Rmax_lub; lra.
Qed.

Lemma C3_witness :
  0 < 10 /\ Hot.hoursOld 1000 (VDate (Some 1000%Z)) = Num 0.1.
Proof.
  split; [lra|]. apply (C3_now_hits_floor 1000 10). lra.
Defined.

(** ** C4 *)

(** The age in hours, once it is past the floor. *)
Lemma hoursR_past_floor (clock tv : Z) :
  (360000 <= clock - tv)%Z -> hoursR clock tv = IZR (clock - tv) / 3600000.
Proof.
  intros H. apply IZR_le in H. rewrite minus_IZR in *.
  unfold hoursR. rmax. reflexivity.
Qed.

Lemma hoursR_under_floor (clock tv : Z) :
  (clock - tv <= 360000)%Z -> hoursR clock tv = 0.1.
Proof.
  intros H. apply IZR_le in H. rewrite minus_IZR in *.
  unfold hoursR. rmax. reflexivity.
Qed.

Lemma hoursR_mono (clock tv1 tv2 : Z) :
  (clock - tv1 <= clock - tv2)%Z -> hoursR clock tv1 <= hoursR clock tv2.
Proof.
  intros H. apply IZR_le in H. rewrite !minus_IZR in H.
  unfold hoursR. apply Rmax_lub.
  - eapply Rle_trans; [|apply Rmax_l]. lra.
  - apply Rmax_r.
Qed.

Lemma multR_antitone (h1 h2 : R) : h1 <= h2 -> multR h2 <= multR h1.
Proof.
  intros H. unfold multR. apply Rmax_lub.
  - apply Rmax_l.
  - eapply Rle_trans; [|apply Rmax_r]. lra.
Qed.

Lemma scoreR_decreasing (p h1 h2 : R) :
  0 < p -> 0 < h1 -> h1 < h2 -> scoreR p h2 < scoreR p h1.
Proof.
  intros Hp Hh1 Hlt. unfold scoreR.
  pose proof (multR_antitone h1 h2 (Rlt_le _ _ Hlt)) as Hm.
  pose proof (multR_ge_1 h2) as Hm2.
  assert (Hv : p / h2 < p / h1).
  { unfold Rdiv. apply Rmult_lt_compat_l; [exact Hp|].
    apply Rinv_lt_contravar; [nra | exact Hlt]. }
  assert (Hv2 : 0 < p / h2) by (apply Rdiv_lt_0_compat; lra).
  apply Rle_lt_trans with (p / h2 * multR h1).
  - apply Rmult_le_compat_l; lra.
  - apply Rmult_lt_compat_r; lra.
Qed.

(** C4 (as stated, refuted): ten points at age 0 and at age 3 minutes have
    the same unrounded score, 297.5; the score does not strictly decrease
    between these two ages. *)
Lemma C4_counterexample :
  Hot.scoreOf 180000 (Num 10) (VDate (Some 180000%Z)) = Num 297.5 /\
  Hot.scoreOf 180000 (Num 10) (VDate (Some 0%Z)) = Num 297.5.
Proof.
  split; rewrite scoreOf_valid; unfold scoreR, hoursR, multR; rmax; f_equal; lra.
Qed.

(** C4 (amended): for fixed [points > 0] the unrounded score is constant
    while the age is at most 6 minutes (the floor of [hoursOld]), strictly
    decreasing in the age from 6 minutes on, hence never increasing; from 8
    hours on the multiplier is 1 and the score is the velocity
    [points / hoursOld].  Ages are [clock - tv] in milliseconds. *)
Theorem C4_score_decay (clock : Z) (p : R) (tv1 tv2 : Z) :
  0 < p ->
  let s1 := scoreR p (hoursR clock tv1) in
  let s2 := scoreR p (hoursR clock tv2) in
  Hot.scoreOf clock (Num p) (VDate (Some tv1)) = Num s1 /\
  Hot.scoreOf clock (Num p) (VDate (Some tv2)) = Num s2 /\
  ((clock - tv1 <= 360000)%Z -> (clock - tv2 <= 360000)%Z -> s1 = s2) /\
  ((360000 <= clock - tv1)%Z -> (clock - tv1 < clock - tv2)%Z -> s2 < s1) /\
  ((clock - tv1 <= clock - tv2)%Z -> s2 <= s1) /\
  ((28800000 <= clock - tv1)%Z ->
   Hot.recencyMultiplier (Hot.hoursOld clock (VDate (Some tv1))) = Num 1 /\
   Hot.scoreOf clock (Num p) (VDate (Some tv1)) =
     Hot.velocity (Num p) (Hot.hoursOld clock (VDate (Some tv1))) /\
   s1 = p / (IZR (clock - tv1) / 3600000)).
Proof.
  intros Hp s1 s2.
  assert (Strict : forall a b, (360000 <= clock - a)%Z ->
                     (clock - a < clock - b)%Z ->
                     scoreR p (hoursR clock b) < scoreR p (hoursR clock a)).
  { intros a b Ha Hab.
    rewrite (hoursR_past_floor clock a Ha).
    rewrite (hoursR_past_floor clock b) by lia.
    apply IZR_le in Ha. apply IZR_lt in Hab.
    apply scoreR_decreasing; lra. }
  split; [apply scoreOf_valid|]. split; [apply scoreOf_valid|].
  split; [|split; [|split]].
  - intros H1 H2. unfold s1, s2.
    rewrite (hoursR_under_floor clock tv1 H1), (hoursR_under_floor clock tv2 H2).
    reflexivity.
  - intros H1 H2. apply Strict; assumption.
  - intros H. unfold s1, s2.
    destruct (Z.le_gt_cases (clock - tv2) 360000) as [H2 | H2].
    + rewrite (hoursR_under_floor clock tv1) by lia.
      rewrite (hoursR_under_floor clock tv2 H2). lra.
    + destruct (Z.le_gt_cases 360000 (clock - tv1)) as [H1 | H1].
      * destruct (Z.eq_dec (clock - tv1) (clock - tv2)) as [E | E].
        -- unfold hoursR. rewrite <- !minus_IZR, E. lra.
        -- apply Rlt_le, Strict; lia.
      * rewrite (hoursR_under_floor clock tv1) by lia.
        replace 0.1 with (hoursR clock (clock - 360000)).
        -- apply Rlt_le, Strict; lia.
        -- apply hoursR_under_floor. lia.
  - intros H.
    assert (Eh : hoursR clock tv1 = IZR (clock - tv1) / 3600000)
      by (apply hoursR_past_floor; lia).
    apply IZR_le in H.
    assert (Em : multR (hoursR clock tv1) = 1).
    { rewrite Eh. unfold multR. rmax. reflexivity. }
    split; [|split].
    + rewrite hoursOld_valid, recencyMultiplier_Num, Em. reflexivity.
    + rewrite scoreOf_valid, hoursOld_valid. unfold scoreR. rewrite Em.
      cbn. f_equal. lra.
    + unfold s1, scoreR. rewrite Em, Eh. lra.
Qed.

Lemma C4_witness :
  0 < 10 /\
  Hot.scoreOf 7200000 (Num 10) (VDate (Some 3600000%Z)) =
    Num (scoreR 10 (hoursR 7200000 3600000)).
Proof.
  split; [lra|]. apply (C4_score_decay 7200000 10 3600000 0). lra.
Defined.

(** ** C7 *)

(** C7 (as stated, refuted): two stories of 1000 points, one exactly ten
    hours old and one 3.6 seconds older.  The unrounded scores are 100 and
    99.990001...; both are returned as 100, yet the levels are [fire] and
    [hot]: the level is not a function of the returned score. *)
Lemma C7_counterexample :
  let r1 := calculateHotness 36003600 (Num 1000) (VDate (Some 3600%Z)) in
  let r2 := calculateHotness 36003600 (Num 1000) (VDate (Some 0%Z)) in
  score r1 = Num 100 /\ score r2 = Num 100 /\
  level r1 = fire /\ level r2 = hot.
Proof.
  cbv zeta. repeat split.
  - rewrite score_valid. unfold scoreR, hoursR, multR. rmax.
    rewrite (round1_at _ 1000); [f_equal; lra | lra].
  - rewrite score_valid. unfold scoreR, hoursR, multR. rmax.
    rewrite (round1_at _ 1000); [f_equal; lra | lra].
  - level_eval.
  - level_eval.
Qed.

(** C7 (amended): with a valid timestamp the level is a function of the
    unrounded score, the value of [velocity * recencyMultiplier] as the
    program computes it, and it is monotone in it; a strictly larger returned
    score never comes with a lower level (the one-decimal rounding being
    monotone and keeping [NaN], as it is on doubles); the reason is non-null
    only for [fire], [hot], [warm], or [mild] with an unrounded [hoursOld]
    below 2; and the returned score, velocity and hoursOld are the unrounded
    locals rounded to one decimal, the level and the reason being computed
    before the rounding.  The statement is for every arithmetic, that of
    doubles included. *)
Theorem C7_level_follows_unrounded_score
  (A : Arith) (clock : Z) (p1 p2 : number) (tv1 tv2 : Z) :
  let h1 := Rounded.hoursOld A clock (VDate (Some tv1)) in
  let h2 := Rounded.hoursOld A clock (VDate (Some tv2)) in
  let v1 := Rounded.velocity A p1 h1 in
  let s1 := Rounded.score A v1 (Rounded.recencyMultiplier A h1) in
  let s2 := Rounded.score A (Rounded.velocity A p2 h2)
                          (Rounded.recencyMultiplier A h2) in
  let r1 := Rounded.calculateHotness A clock p1 (VDate (Some tv1)) in
  let r2 := Rounded.calculateHotness A clock p2 (VDate (Some tv2)) in
  level r1 = levelOf s1 /\ level r2 = levelOf s2 /\
  (forall x y, s1 = Num x -> s2 = Num y -> x <= y ->
               (rank (level r1) <= rank (level r2))%nat) /\
  ((forall x y, x <= y ->
      exists a b, Rounded.round1 A (Num x) = Num a /\
                  Rounded.round1 A (Num y) = Num b /\ a <= b) ->
   Rounded.round1 A NaN = NaN ->
   forall a b, score r1 = Num a -> score r2 = Num b -> a < b ->
               (rank (level r1) <= rank (level r2))%nat) /\
  (reason r1 <> None ->
   level r1 = fire \/ level r1 = hot \/ level r1 = warm \/
   (level r1 = mild /\ exists a, h1 = Num a /\ a < 2)) /\
  score r1 = Rounded.round1 A s1 /\
  velocity r1 = Rounded.round1 A v1 /\
  hoursOld r1 = Some (Rounded.round1 A h1).
Proof.
  intros h1 h2 v1 s1 s2 r1 r2.
  destruct (Rounded_calculateHotness_date A clock p1 (Some tv1))
    as (S1 & Ev & Eh & L1 & Er).
  destruct (Rounded_calculateHotness_date A clock p2 (Some tv2))
    as (S2 & _ & _ & L2 & _).
  cbv zeta in S1, Ev, Eh, L1, Er, S2, L2.
  fold h1 in S1, Ev, Eh, L1, Er. fold v1 in S1, Ev, L1, Er.
  fold s1 in S1, L1, Er. fold r1 in S1, Ev, Eh, L1, Er.
  fold h2 in S2, L2. fold s2 in S2, L2. fold r2 in S2, L2.
  split; [exact L1|]. split; [exact L2|]. split; [|split; [|split]].
  - intros x y Ex Ey H. rewrite L1, L2, Ex, Ey. apply levelOf_mono, H.
  - intros Hmono Hnan a b Ha Hb Hab. rewrite L1, L2.
    destruct s1 as [|x] eqn:Ex; [cbn; lia|].
    destruct s2 as [|y] eqn:Ey.
    { rewrite S2, Hnan in Hb. discriminate. }
    apply levelOf_mono.
    destruct (Rle_dec x y) as [H | H]; [exact H|].
    assert (H' : y <= x) by lra.
    destruct (Hmono y x H') as (b' & a' & Eb & Ea & Hle).
    rewrite S1, Ea in Ha. rewrite S2, Eb in Hb.
    injection Ha as <-. injection Hb as <-. lra.
  - intros Hr. rewrite Er in Hr. rewrite L1.
    destruct (levelOf s1).
    + left. reflexivity.
    + right. left. reflexivity.
    + right. right. left. reflexivity.
    + right. right. right. split; [reflexivity|].
      destruct h1 as [|a]; [cbn in Hr; contradiction|].
      exists a. split; [reflexivity|].
      destruct (Number.ltb (Num a) (Num 2)) eqn:L.
      * apply ltb_true in L. exact L.
      * contradiction.
    + contradiction.
  - split; [exact S1|]. split; [exact Ev | exact Eh].
Qed.

Lemma C7_witness :
  let r1 := Rounded.calculateHotness exact 36003600 (Num 1000) (VDate (Some 0%Z)) in
  let r2 := Rounded.calculateHotness exact 36003600 (Num 2000) (VDate (Some 3600%Z)) in
  (forall x y, x <= y ->
     exists a b, Rounded.round1 exact (Num x) = Num a /\
                 Rounded.round1 exact (Num y) = Num b /\ a <= b) /\
  Rounded.round1 exact NaN = NaN /\
  score r1 = Num 100 /\ score r2 = Num 200 /\ 100 < 200 /\
  (rank (level r1) <= rank (level r2))%nat.
Proof.
  intros r1 r2.
  assert (M : forall x y, x <= y ->
                exists a b, Rounded.round1 exact (Num x) = Num a /\
                            Rounded.round1 exact (Num y) = Num b /\ a <= b)
    by exact round1_le.
  assert (E1 : score r1 = Num 100).
  { unfold r1. rewrite calculateHotness_exact, score_valid.
    unfold scoreR, hoursR, multR. rmax.
    rewrite (round1_at _ 1000); [f_equal; lra | lra]. }
  assert (E2 : score r2 = Num 200).
  { unfold r2. rewrite calculateHotness_exact, score_valid.
    unfold scoreR, hoursR, multR. rmax.
    rewrite (round1_at _ 2000); [f_equal; lra | lra]. }
  split; [exact M|]. split; [reflexivity|].
  split; [exact E1|]. split; [exact E2|]. split; [lra|].
  destruct (C7_level_follows_unrounded_score exact 36003600 (Num 1000) (Num 2000)
              0 3600) as (_ & _ & _ & H & _).
  apply (H M eq_refl 100 200 E1 E2). lra.
Defined.

(** ** C8 *)

Lemma ratio_valid (c p : R) :
  (if Number.gtb (Num p) (Num 0) then Number.div (Num c) (Num p) else Num 0) =
  Num (ratioR c p).
Proof.
  unfold ratioR, Number.gtb.
  destruct (Rgt_dec p 0), (Rlt_dec 0 p); try reflexivity; unfold Rgt in *; lra.
Qed.

(** C8: [null] for a falsy comment count ([null], [NaN], 0) and for a count
    below 10; otherwise, with [ratio = commentCount / points] (0 when
    [points <= 0]), the first of these that applies: 200 comments or more is
    [intense]; a ratio above 2 with 50 comments or more is [controversial];
    100 comments or more is [active]; and [null] when none applies.  The four
    examples of the specification follow. *)
Theorem C8_discussion_cascade (c p : R) :
  let r := calculateDiscussionIntensity (Some (Num c)) (Some (Num p)) in
  (forall points, calculateDiscussionIntensity None points = None) /\
  (forall points, calculateDiscussionIntensity (Some NaN) points = None) /\
  (c = 0 \/ c < 10 -> r = None) /\
  (200 <= c -> r = Some (intense_of c)) /\
  (50 <= c < 200 -> 2 < ratioR c p -> r = Some controversial_result) /\
  (100 <= c < 200 -> ratioR c p <= 2 -> r = Some (active_of c)) /\
  (10 <= c < 50 -> r = None) /\
  (50 <= c < 100 -> ratioR c p <= 2 -> r = None) /\
  calculateDiscussionIntensity (Some (Num 9)) (Some (Num 100)) = None /\
  calculateDiscussionIntensity (Some (Num 250)) (Some (Num 100)) =
    Some (intense_of 250) /\
  calculateDiscussionIntensity (Some (Num 60)) (Some (Num 20)) =
    Some controversial_result /\
  calculateDiscussionIntensity (Some (Num 120)) (Some (Num 1000)) =
    Some (active_of 120).
Proof.
  intros r.
  assert (G : forall c p : R,
             calculateDiscussionIntensity (Some (Num c)) (Some (Num p)) =
             if negb (Number.truthy (Num c)) || Number.ltb (Num c) (Num 10)
             then None
             else if Number.geb (Num c) (Num 200) then Some (intense_of c)
             else if Number.gtb (Num (ratioR c p)) (Num 2) &&
                     Number.geb (Num c) (Num 50)
                  then Some controversial_result
             else if Number.geb (Num c) (Num 100) then Some (active_of c)
             else None).
  { intros c0 p0. unfold calculateDiscussionIntensity. cbn [truthyN toNumber].
    rewrite ratio_valid. reflexivity. }
  assert (T : forall x : R, x <> 0 -> Number.truthy (Num x) = true)
    by (intros x Hx; apply truthy_Num, Hx).
  split; [reflexivity|]. split; [reflexivity|].
  split; [|split; [|split; [|split; [|split; [|split]]]]].
  - intros [H | H]; unfold r; rewrite G.
    + subst c. unfold Number.truthy. destruct (Req_dec_T 0 0); [reflexivity | lra].
    + rewrite (proj2 (ltb_true c 10) H), orb_true_r. reflexivity.
  - intros H. unfold r. rewrite G, T by lra. cmp_eval. reflexivity.
  - intros H Hr. unfold r. rewrite G, T by lra. cmp_eval. reflexivity.
  - intros H Hr. unfold r. rewrite G, T by lra. cmp_eval. reflexivity.
  - intros H. unfold r. rewrite G, T by lra. cmp_eval.
    rewrite andb_false_r. reflexivity.
  - intros H Hr. unfold r. rewrite G, T by lra. cmp_eval. reflexivity.
  - assert (R1 : ratioR 60 20 = 3).
    { unfold ratioR. destruct (Rlt_dec 0 20); lra. }
    assert (R2 : ratioR 120 1000 = 0.12).
    { unfold ratioR. destruct (Rlt_dec 0 1000); lra. }
    repeat split; rewrite G, T by lra; try rewrite R1; try rewrite R2;
      cmp_eval; reflexivity.
Qed.

Lemma C8_witness :
  calculateDiscussionIntensity (Some (Num 60)) (Some (Num 20)) =
  Some controversial_result.
Proof.
  apply (C8_discussion_cascade 60 20).
Defined.

(** ** Sets and maps of the topic extractor *)

Lemma has_In (set : list string) (w : string) : has set w = true <-> In w set.
Proof.
  unfold has. rewrite existsb_exists. split.
  - intros (x & Hx & E). apply String.eqb_eq in E. subst. exact Hx.
  - intros H. exists w. split; [exact H | apply String.eqb_refl].
Qed.

Lemma has_not_In (set : list string) (w : string) : has set w = false <-> ~ In w set.
Proof.
  rewrite <- has_In. destruct (has set w); split; intros; congruence.
Qed.

Lemma has_cons (a : string) (set : list string) (w : string) :
  has (a :: set) w = String.eqb a w || has set w.
Proof. unfold has. cbn. rewrite (String.eqb_sym w a). reflexivity. Qed.

Lemma Set_add_spec (set : list string) (a w : string) :
  In w (Set_add set a) <-> In w set \/ w = a.
Proof.
  unfold Set_add. destruct (has set a) eqn:E.
  - apply has_In in E. split; [auto|]. intros [H | ->]; assumption.
  - rewrite in_app_iff. cbn. split; intros [H | H]; auto.
    + destruct H as [<- | []]. auto.
Qed.

Lemma Set_add_NoDup (set : list string) (a : string) :
  NoDup set -> NoDup (Set_add set a).
Proof.
  intros H. unfold Set_add. destruct (has set a) eqn:E; [exact H|].
  apply has_not_In in E.
  apply NoDup_rev in H. rewrite <- (rev_involutive (set ++ [a])).
  apply NoDup_rev. rewrite rev_app_distr. cbn. constructor; [|exact H].
  rewrite <- in_rev. exact E.
Qed.

Lemma Set_fold_spec (words set : list string) (w : string) :
  In w (fold_left Set_add words set) <-> In w set \/ In w words.
Proof.
  revert set. induction words as [|a words IH]; intros set; cbn.
  - tauto.
  - rewrite IH, Set_add_spec. intuition (subst; auto).
Qed.

Lemma Set_fold_NoDup (words set : list string) :
  NoDup set -> NoDup (fold_left Set_add words set).
Proof.
  revert set. induction words as [|a words IH]; intros set H; cbn.
  - exact H.
  - apply IH, Set_add_NoDup, H.
Qed.

(** [new Set(words)] has the elements of [words], each once. *)
Lemma Set_of_spec (words : list string) (w : string) :
  In w (Set_of words) <-> In w words.
Proof. unfold Set_of. rewrite Set_fold_spec. cbn. tauto. Qed.

Lemma Set_of_NoDup (words : list string) : NoDup (Set_of words).
Proof. apply Set_fold_NoDup. constructor. Qed.

Lemma has_Set_of (words : list string) (w : string) :
  has (Set_of words) w = has words w.
Proof.
  destruct (has words w) eqn:E.
  - apply has_In, Set_of_spec, has_In, E.
  - apply has_not_In. rewrite Set_of_spec. apply has_not_In, E.
Qed.

(** [get] after [set]. *)
Lemma Map_get_set (m : Map) (k k' : string) (v : Data.t) :
  Map_get (Map_set m k v) k' = if String.eqb k k' then Some v else Map_get m k'.
Proof.
  induction m as [|[a b] m IH]; cbn.
  - reflexivity.
  - destruct (String.eqb a k) eqn:E; cbn.
    + apply String.eqb_eq in E. subst a. destruct (String.eqb k k'); reflexivity.
    + rewrite IH. destruct (String.eqb a k') eqn:E'; [|reflexivity].
      apply String.eqb_eq in E'. subst k'.
      rewrite String.eqb_sym, E. reflexivity.
Qed.

(** [set] keeps the place of a present key and puts a new key last. *)
Lemma keys_set (m : Map) (k : string) (v : Data.t) :
  keys (Map_set m k v) = if has (keys m) k then keys m else keys m ++ [k].
Proof.
  unfold keys. induction m as [|[a b] m IH].
  - reflexivity.
  - cbn [Map_set map fst]. rewrite has_cons.
    destruct (String.eqb a k) eqn:E; cbn [map fst orb].
    + apply String.eqb_eq in E. subst a. reflexivity.
    + rewrite IH. destruct (has (map fst m) k); reflexivity.
Qed.

Lemma keys_set_NoDup (m : Map) (k : string) (v : Data.t) :
  NoDup (keys m) -> NoDup (keys (Map_set m k v)).
Proof.
  intros H. rewrite keys_set. destruct (has (keys m) k) eqn:E; [exact H|].
  apply has_not_In in E.
  apply NoDup_rev in H. rewrite <- (rev_involutive (keys m ++ [k])).
  apply NoDup_rev. rewrite rev_app_distr. cbn. constructor; [|exact H].
  rewrite <- in_rev. exact E.
Qed.

Lemma Map_get_In (m : Map) (k : string) (v : Data.t) :
  Map_get m k = Some v -> In (k, v) m.
Proof.
  induction m as [|[a b] m IH]; cbn; [discriminate|].
  destruct (String.eqb a k) eqn:E.
  - apply String.eqb_eq in E. subst a. intros [= ->]. left. reflexivity.
  - intros H. right. apply IH, H.
Qed.

Lemma Map_In_get (m : Map) (k : string) (v : Data.t) :
  NoDup (keys m) -> In (k, v) m -> Map_get m k = Some v.
Proof.
  unfold keys. induction m as [|[a b] m IH]; cbn; [tauto|].
  intros Hn [H | H].
  - injection H as -> ->. rewrite String.eqb_refl. reflexivity.
  - inversion Hn as [|? ? Ha Hm]; subst.
    destruct (String.eqb a k) eqn:E.
    + apply String.eqb_eq in E. subst a. exfalso. apply Ha.
      apply (in_map fst) in H. exact H.
    + apply IH; assumption.
Qed.

(** ** What [wordCounts] holds *)

Lemma points_or_0_pointsR (story : Story.t) :
  points_or_0 (Story.points story) = Num (pointsR story).
Proof.
  unfold pointsR, points_or_0.
  destruct (Story.points story) as [[|x]|]; cbn; try reflexivity.
  destruct (Req_dec_T x 0); reflexivity.
Qed.

Lemma count_word_get (story : Story.t) (m : Map) (w w' : string) :
  Map_get (count_word story m w) w' =
  if String.eqb w w'
  then Some {| Data.count := Map_count m w + 1;
               Data.points := Number.add (Map_points m w) (Num (pointsR story)) |}
  else Map_get m w'.
Proof.
  unfold count_word. rewrite Map_get_set, points_or_0_pointsR.
  unfold Map_count, Map_points. destruct (Map_get m w); reflexivity.
Qed.

Lemma count_word_count (story : Story.t) (m : Map) (w w' : string) :
  Map_count (count_word story m w) w' =
  (Map_count m w' + if String.eqb w w' then 1 else 0)%nat.
Proof.
  unfold Map_count at 1. rewrite count_word_get.
  destruct (String.eqb w w') eqn:E.
  - apply String.eqb_eq in E. subst. reflexivity.
  - unfold Map_count. lia.
Qed.

Lemma count_word_points (story : Story.t) (m : Map) (w w' : string) :
  Map_points (count_word story m w) w' =
  if String.eqb w w'
  then Number.add (Map_points m w') (Num (pointsR story))
  else Map_points m w'.
Proof.
  unfold Map_points at 1. rewrite count_word_get.
  destruct (String.eqb w w') eqn:E.
  - apply String.eqb_eq in E. subst. reflexivity.
  - reflexivity.
Qed.

Lemma count_word_pos (story : Story.t) (m : Map) (w : string) :
  Map_pos m -> Map_pos (count_word story m w).
Proof.
  intros H w' d. rewrite count_word_get.
  destruct (String.eqb w w').
  - intros [= <-]. cbn. lia.
  - apply H.
Qed.

Lemma count_word_NoDup (story : Story.t) (m : Map) (w : string) :
  NoDup (keys m) -> NoDup (keys (count_word story m w)).
Proof. apply keys_set_NoDup. Qed.

(** [uniqueWords.forEach]: each word of the set is counted once. *)
Lemma count_words_count (story : Story.t) (ws : list string) (m : Map) (w' : string) :
  NoDup ws ->
  Map_count (fold_left (count_word story) ws m) w' =
  (Map_count m w' + if has ws w' then 1 else 0)%nat.
Proof.
  intros Hn. revert m. induction Hn as [|a ws Ha Hn IH]; intros m; cbn [fold_left].
  - cbn. lia.
  - rewrite IH, count_word_count, has_cons.
    destruct (String.eqb a w') eqn:E; cbn [orb]; [|lia].
    apply String.eqb_eq in E. subst a.
    apply has_not_In in Ha. rewrite Ha. lia.
Qed.

Lemma count_words_points (story : Story.t) (ws : list string) (m : Map) (w' : string) :
  NoDup ws ->
  Map_points (fold_left (count_word story) ws m) w' =
  if has ws w'
  then Number.add (Map_points m w') (Num (pointsR story))
  else Map_points m w'.
Proof.
  intros Hn. revert m. induction Hn as [|a ws Ha Hn IH]; intros m; cbn [fold_left].
  - reflexivity.
  - rewrite IH, count_word_points, has_cons.
    destruct (String.eqb a w') eqn:E; cbn [orb]; [|reflexivity].
    apply String.eqb_eq in E. subst a.
    apply has_not_In in Ha. rewrite Ha. reflexivity.
Qed.

Lemma count_words_inv (story : Story.t) (ws : list string) (m : Map) :
  Map_pos m /\ NoDup (keys m) ->
  Map_pos (fold_left (count_word story) ws m) /\
  NoDup (keys (fold_left (count_word story) ws m)).
Proof.
  revert m. induction ws as [|a ws IH]; intros m [Hp Hk]; cbn [fold_left].
  - split; assumption.
  - apply IH. split; [apply count_word_pos, Hp | apply count_word_NoDup, Hk].
Qed.

Lemma words_of_empty : words_of EmptyString = [].
Proof. reflexivity. Qed.

Lemma count_story_unfold (m : Map) (story : Story.t) :
  count_story m story =
  match Story.title story with
  | Some title => fold_left (count_word story) (Set_of (words_of title)) m
  | None => m
  end.
Proof.
  unfold count_story. destruct (Story.title story) as [title|]; [|reflexivity].
  destruct (String.eqb title EmptyString) eqn:E; [|reflexivity].
  apply String.eqb_eq in E. subst title. reflexivity.
Qed.

(** One story adds one to the count of each word it contains, however often
    the word occurs in the title, and its points to the word's points. *)
Lemma count_story_count (m : Map) (story : Story.t) (w : string) :
  Map_count (count_story m story) w =
  (Map_count m w + if mentions w story then 1 else 0)%nat.
Proof.
  rewrite count_story_unfold. unfold mentions.
  destruct (Story.title story) as [title|]; [|lia].
  rewrite count_words_count by apply Set_of_NoDup.
  rewrite has_Set_of. reflexivity.
Qed.

Lemma count_story_points (m : Map) (story : Story.t) (w : string) :
  Map_points (count_story m story) w =
  if mentions w story
  then Number.add (Map_points m w) (Num (pointsR story))
  else Map_points m w.
Proof.
  rewrite count_story_unfold. unfold mentions.
  destruct (Story.title story) as [title|]; [|reflexivity].
  rewrite count_words_points by apply Set_of_NoDup.
  rewrite has_Set_of. reflexivity.
Qed.

Lemma count_story_inv (m : Map) (story : Story.t) :
  Map_pos m /\ NoDup (keys m) ->
  Map_pos (count_story m story) /\ NoDup (keys (count_story m story)).
Proof.
  intros H. rewrite count_story_unfold.
  destruct (Story.title story); [apply count_words_inv, H | exact H].
Qed.

Lemma count_stories_count (stories : list Story.t) (m : Map) (w : string) :
  Map_count (fold_left count_story stories m) w =
  (Map_count m w + stories_with w stories)%nat.
Proof.
  unfold stories_with. revert m.
  induction stories as [|s stories IH]; intros m; cbn [fold_left filter].
  - cbn. lia.
  - rewrite IH, count_story_count.
    destruct (mentions w s); cbn [List.length]; lia.
Qed.

Lemma count_stories_points (stories : list Story.t) (m : Map) (w : string) (x : R) :
  Map_points m w = Num x ->
  Map_points (fold_left count_story stories m) w = Num (x + points_with w stories).
Proof.
  unfold points_with. revert m x.
  induction stories as [|s stories IH]; intros m x Hx; cbn [fold_left filter].
  - cbn. rewrite Hx. f_equal. lra.
  - destruct (mentions w s) eqn:E.
    + rewrite (IH _ (x + pointsR s)).
      * cbn. f_equal. lra.
      * rewrite count_story_points, E, Hx. reflexivity.
    + apply IH. rewrite count_story_points, E. exact Hx.
Qed.

Lemma count_stories_inv (stories : list Story.t) (m : Map) :
  Map_pos m /\ NoDup (keys m) ->
  Map_pos (fold_left count_story stories m) /\
  NoDup (keys (fold_left count_story stories m)).
Proof.
  revert m. induction stories as [|s stories IH]; intros m H; cbn [fold_left].
  - exact H.
  - apply IH, count_story_inv, H.
Qed.

Lemma wordCounts_inv (stories : list Story.t) :
  Map_pos (wordCounts_of stories) /\ NoDup (keys (wordCounts_of stories)).
Proof.
  apply count_stories_inv. split.
  - intros w d. discriminate.
  - constructor.
Qed.

(** An entry of [wordCounts] holds the number of stories that contain the
    word and the sum of their points. *)
Lemma wordCounts_entry (stories : list Story.t) (w : string) (d : Data.t) :
  In (w, d) (wordCounts_of stories) ->
  Data.count d = stories_with w stories /\
  Data.points d = Num (points_with w stories) /\
  (1 <= stories_with w stories)%nat.
Proof.
  intros H. destruct (wordCounts_inv stories) as [Hp Hk].
  apply (Map_In_get _ _ _ Hk) in H.
  pose proof (count_stories_count stories [] w) as Hc.
  pose proof (count_stories_points stories [] w 0 eq_refl) as Hq.
  fold (wordCounts_of stories) in Hc, Hq.
  unfold Map_count in Hc. unfold Map_points in Hq. rewrite H in Hc, Hq.
  cbn in Hc. specialize (Hp w d H).
  split; [exact Hc|]. split; [|lia].
  rewrite Hq. f_equal. lra.
Qed.

(** ** Sorting and slicing *)

Section SortFacts.
Variable A : Type.
Variable cmp : A -> A -> number.

Lemma sort_insert_perm (a : A) (l : list A) :
  Permutation (sort_insert cmp a l) (a :: l).
Proof.
  induction l as [|b l IH]; cbn.
  - apply Permutation_refl.
  - destruct (Number.gtb (cmp a b) (Num 0)).
    + eapply perm_trans; [apply perm_skip, IH | apply perm_swap].
    + apply Permutation_refl.
Qed.

(** The sort rearranges: nothing is lost, added or duplicated. *)
Lemma Array_sort_perm (l : list A) : Permutation (Array_sort cmp l) l.
Proof.
  induction l as [|a l IH]; cbn.
  - apply perm_nil.
  - eapply perm_trans; [apply sort_insert_perm | apply perm_skip, IH].
Qed.

Lemma Array_sort_In (l : list A) (x : A) : In x (Array_sort cmp l) <-> In x l.
Proof.
  split; apply Permutation_in; [|apply Permutation_sym]; apply Array_sort_perm.
Qed.

Lemma Array_sort_length (l : list A) : List.length (Array_sort cmp l) = List.length l.
Proof. apply Permutation_length, Array_sort_perm. Qed.

End SortFacts.

Arguments sort_insert_perm {A} cmp a l.
Arguments Array_sort_perm {A} cmp l.
Arguments Array_sort_In {A} cmp l x.
Arguments Array_sort_length {A} cmp l.

Lemma firstn_incl {A : Type} (n : nat) (l : list A) (x : A) :
  In x (firstn n l) -> In x l.
Proof.
  revert l. induction n as [|n IH]; intros [|a l]; cbn; try tauto.
  intros [H | H]; [left; exact H | right; apply IH, H].
Qed.

Lemma firstn_le_length {A : Type} (n : nat) (l : list A) :
  (List.length (firstn n l) <= n)%nat.
Proof.
  revert l. induction n as [|n IH]; intros [|a l]; cbn; try lia.
  specialize (IH l). lia.
Qed.

Lemma firstn_all_of {A : Type} (n : nat) (l : list A) :
  (List.length l <= n)%nat -> firstn n l = l.
Proof.
  revert l. induction n as [|n IH]; intros [|a l]; cbn; intros H;
    try reflexivity; try lia.
  f_equal. apply IH. lia.
Qed.

Lemma Array_slice0_In {A : Type} (l : list A) (e : Z) (x : A) :
  In x (Array_slice0 l e) -> In x l.
Proof. apply firstn_incl. Qed.

(** [slice(0, e)] with [e >= 0] keeps the first [e] elements. *)
Lemma Array_slice0_nonneg {A : Type} (l : list A) (e : Z) :
  (0 <= e)%Z -> Array_slice0 l e = firstn (Z.to_nat e) l.
Proof.
  intros H. unfold Array_slice0.
  destruct (Z.ltb_spec e 0) as [H0 | H0]; [lia|].
  destruct (Z.le_gt_cases e (Z.of_nat (List.length l))) as [Hl | Hl].
  - rewrite Z.min_l by exact Hl. reflexivity.
  - rewrite Z.min_r by lia. rewrite Nat2Z.id.
    rewrite !firstn_all_of; [reflexivity | lia | lia].
Qed.

(** ** C5 *)

Lemma topic_of_entry (stories : list Story.t) (limit : option Z) (t : Topic.t) :
  In t (extractTrendingTopics stories limit) ->
  (2 <= Topic.count t)%nat /\
  exists d, In (Topic.word t, d) (wordCounts_of stories) /\
            t = to_topic (Topic.word t, d).
Proof.
  intros H. unfold extractTrendingTopics in H.
  apply Array_slice0_In in H. unfold ranked_topics in H.
  apply Array_sort_In in H. apply filter_In in H. destruct H as [H Hc].
  apply Nat.leb_le in Hc. split; [exact Hc|].
  apply in_map_iff in H. destruct H as ([w d] & <- & H).
  exists d. split; [exact H | reflexivity].
Qed.

(** C5: the [count] of every returned topic is the number of stories of the
    batch whose title contains the topic's word, each story counting once
    however often the word occurs in its title, and it is at least 2.  A word
    that occurs five times in the only title that has it is counted once and
    is not returned. *)
Theorem C5_count_is_stories_with_word
  (stories : list Story.t) (limit : option Z) (t : Topic.t) :
  In t (extractTrendingTopics stories limit) ->
  Topic.count t = stories_with (Topic.word t) stories /\
  (2 <= Topic.count t)%nat /\
  (let five := {| Story.title := Some "Rust rust RUST rust rust"%string;
                  Story.points := Some (Num 500) |} in
   stories_with "rust" [five] = 1%nat /\
   map (fun e => (fst e, Data.count (snd e))) (wordCounts_of [five]) =
     [("rust"%string, 1%nat)] /\
   extractTrendingTopics [five] limit = []).
Proof.
  intros H. destruct (topic_of_entry stories limit t H) as (Hc & d & Hin & Ht).
  destruct (wordCounts_entry stories _ d Hin) as (Ec & _ & _).
  assert (Et : Topic.count t = Data.count d) by (rewrite Ht; reflexivity).
  split; [congruence|]. split; [exact Hc|].
  cbv zeta. split; [reflexivity|]. split; [vm_compute; reflexivity|].
  unfold extractTrendingTopics.
  assert (E : ranked_topics
                [{| Story.title := Some "Rust rust RUST rust rust"%string;
                    Story.points := Some (Num 500) |}] = []) by reflexivity.
  rewrite E. unfold Array_slice0. apply firstn_nil.
Qed.

Lemma C5_witness :
  let stories :=
    [ {| Story.title := Some "Rust is great"%string; Story.points := Some (Num 100) |};
      {| Story.title := Some "Why Rust wins"%string; Story.points := Some (Num 50) |};
      {| Story.title := Some "Learning Python"%string; Story.points := Some (Num 10) |} ] in
  exists t, In t (extractTrendingTopics stories None) /\
            Topic.word t = "rust"%string /\
            Topic.count t = stories_with "rust" stories.
Proof.
  cbv zeta.
  eexists. split; [|split].
  - unfold extractTrendingTopics, Array_slice0.
    lazy -[to_topic In]. left. reflexivity.
  - reflexivity.
  - match goal with
    | |- Topic.count ?t = _ =>
        apply (C5_count_is_stories_with_word _ None t)
    end.
    unfold extractTrendingTopics, Array_slice0.
    lazy -[to_topic In]. left. reflexivity.
Defined.

(** ** Logarithms to base 10 *)

Lemma ln10_pos : 0 < ln 10.
Proof. rewrite <- ln_1. apply ln_increasing; lra. Qed.

Lemma ln_IZR_pow (z b : Z) :
  (0 < z)%Z -> (0 <= b)%Z -> ln (IZR (z ^ b)) = IZR b * ln (IZR z).
Proof.
  intros Hz Hb. rewrite <- (Z2Nat.id b Hb) at 1. rewrite <- pow_IZR.
  rewrite ln_pow by (apply IZR_lt, Hz).
  rewrite INR_IZR_INZ, Z2Nat.id by exact Hb. reflexivity.
Qed.

Lemma log10_gt (z a b : Z) :
  (0 < z)%Z -> (0 <= a)%Z -> (0 < b)%Z -> (10 ^ a < z ^ b)%Z ->
  IZR a / IZR b < ln (IZR z) / ln 10.
Proof.
  intros Hz Ha Hb H.
  assert (Hl : ln (IZR (10 ^ a)) < ln (IZR (z ^ b))).
  { apply ln_increasing; [apply IZR_lt; lia | apply IZR_lt, H]. }
  rewrite !ln_IZR_pow in Hl by lia.
  pose proof ln10_pos as L. apply IZR_lt in Hb.
  apply Rmult_lt_reg_r with (IZR b * ln 10); [nra|].
  field_simplify; [|lra|lra]. nra.
Qed.

Lemma log10_lt (z a b : Z) :
  (0 < z)%Z -> (0 <= a)%Z -> (0 < b)%Z -> (z ^ b < 10 ^ a)%Z ->
  ln (IZR z) / ln 10 < IZR a / IZR b.
Proof.
  intros Hz Ha Hb H.
  assert (Hl : ln (IZR (z ^ b)) < ln (IZR (10 ^ a))).
  { apply ln_increasing; [apply IZR_lt; lia | apply IZR_lt, H]. }
  rewrite !ln_IZR_pow in Hl by lia.
  pose proof ln10_pos as L. apply IZR_lt in Hb.
  apply Rmult_lt_reg_r with (IZR b * ln 10); [nra|].
  field_simplify; [|lra|lra]. nra.
Qed.

Lemma log10_100 : ln 100 / ln 10 = 2.
Proof.
  pose proof ln10_pos.
  change 100 with (IZR (10 ^ 2)). rewrite ln_IZR_pow by lia. field. lra.
Qed.

Lemma log10_101 : 2 < ln 101 / ln 10 < 2.025.
Proof.
  split.
  - pose proof (log10_gt 101 2 1 ltac:(lia) ltac:(lia) ltac:(lia) ltac:(lia)). lra.
  - pose proof (log10_lt 101 81 40 ltac:(lia) ltac:(lia) ltac:(lia) ltac:(vm_compute; reflexivity)). lra.
Qed.

Lemma log10_11 : 1.025 < ln 11 / ln 10 < 1.05.
Proof.
  split.
  - pose proof (log10_gt 11 41 40 ltac:(lia) ltac:(lia) ltac:(lia) ltac:(vm_compute; reflexivity)). lra.
  - pose proof (log10_lt 11 21 20 ltac:(lia) ltac:(lia) ltac:(lia) ltac:(vm_compute; reflexivity)). lra.
Qed.

(** ** The weight of a topic *)

Lemma weight_of_formula (w : string) (c : nat) (q : R) :
  (1 <= c)%nat ->
  weight_of w {| Data.count := c; Data.points := Num q |} =
  Num (weight_formula c q (if has TECH_KEYWORDS w then 1.5 else 1)).
Proof.
  intros _. unfold weight_of, weight_formula. cbn [Data.points Data.count].
  cbn [Number.div Number.lift2 Number.of_nat Math.max Math.log10].
  destruct (Rlt_dec 0 (Rmax (q / INR c) 1)) as [H | H].
  - destruct (has TECH_KEYWORDS w); reflexivity.
  - exfalso. apply H. pose proof (Rmax_r (q / INR c) 1). lra.
Qed.

Lemma round1_one_decimal (x : R) : round1 (Num x) = Num (one_decimal x).
Proof. reflexivity. Qed.

(** The weight of a returned or qualifying topic, from the batch. *)
Lemma topic_weight (stories : list Story.t) (w : string) (d : Data.t) :
  In (w, d) (wordCounts_of stories) ->
  Topic.weight (to_topic (w, d)) =
  Num (one_decimal
         (weight_formula (stories_with w stories) (points_with w stories)
                         (if has TECH_KEYWORDS w then 1.5 else 1))).
Proof.
  intros H. destruct (wordCounts_entry stories w d H) as (Ec & Eq & Hc).
  destruct d as [c q]. cbn in Ec, Eq. subst c q.
  cbn [to_topic Topic.weight]. rewrite weight_of_formula by exact Hc.
  reflexivity.
Qed.

Lemma qualifying_weight (stories : list Story.t) (t : Topic.t) :
  In t (qualifying_topics stories) ->
  Topic.weight t =
  Num (one_decimal
         (weight_formula (Topic.count t) (points_with (Topic.word t) stories)
                         (if Topic.isTech t then 1.5 else 1))).
Proof.
  intros H. apply filter_In in H. destruct H as [H _].
  apply in_map_iff in H. destruct H as ([w d] & <- & H).
  rewrite (topic_weight stories w d H).
  destruct (wordCounts_entry stories w d H) as (Ec & _ & _).
  cbn [to_topic Topic.count Topic.word Topic.isTech]. rewrite Ec. reflexivity.
Qed.

Lemma weight_is_Num (t : Topic.t) (x : R) :
  Topic.weight t = Num x -> Topic.weight t = Num (weightR t).
Proof. intros H. unfold weightR. rewrite H. reflexivity. Qed.

(** ** The sort by weight *)

Lemma by_weight_gtb (a b : Topic.t) :
  Topic.weight a = Num (weightR a) -> Topic.weight b = Num (weightR b) ->
  Number.gtb (by_weight a b) (Num 0) =
  if Rlt_dec (weightR a) (weightR b) then true else false.
Proof.
  intros Ha Hb. unfold by_weight. rewrite Ha, Hb. cbn.
  destruct (Rgt_dec (weightR b - weightR a) 0), (Rlt_dec (weightR a) (weightR b));
    try reflexivity; unfold Rgt in *; lra.
Qed.

Lemma sort_insert_Nums (a : Topic.t) (l : list Topic.t) :
  Nums (a :: l) -> Nums (sort_insert by_weight a l).
Proof.
  unfold Nums. rewrite !Forall_forall. intros H x Hx. apply H.
  apply (Permutation_in x (sort_insert_perm by_weight a l)), Hx.
Qed.

Lemma sort_insert_HdRel (a b : Topic.t) (l : list Topic.t) :
  weightR a <= weightR b ->
  HdRel (fun x y => weightR y <= weightR x) b l ->
  HdRel (fun x y => weightR y <= weightR x) b (sort_insert by_weight a l).
Proof.
  intros Hab H. destruct l as [|c l]; cbn.
  - constructor. exact Hab.
  - inversion H; subst.
    destruct (Number.gtb (by_weight a c) (Num 0)); constructor; assumption.
Qed.

Lemma sort_insert_Sorted (a : Topic.t) (l : list Topic.t) :
  Nums (a :: l) ->
  Sorted (fun x y => weightR y <= weightR x) l ->
  Sorted (fun x y => weightR y <= weightR x) (sort_insert by_weight a l).
Proof.
  intros Hn Hs. induction Hs as [|b l Hs IH Hb]; cbn.
  - repeat constructor.
  - inversion Hn as [|? ? Ha Hl]; subst. inversion Hl as [|? ? Hb' Hl']; subst.
    rewrite (by_weight_gtb a b Ha Hb').
    destruct (Rlt_dec (weightR a) (weightR b)) as [Hlt | Hge].
    + constructor.
      * apply IH. constructor; assumption.
      * apply sort_insert_HdRel; [lra | exact Hb].
    + constructor; [constructor; assumption|]. constructor. lra.
Qed.

Lemma Array_sort_Sorted (l : list Topic.t) :
  Nums l ->
  Sorted (fun x y => weightR y <= weightR x) (Array_sort by_weight l).
Proof.
  intros Hn. induction Hn as [|a l Ha Hl IH]; cbn.
  - constructor.
  - apply sort_insert_Sorted; [|exact IH].
    constructor; [exact Ha|].
    unfold Nums. rewrite Forall_forall. intros x Hx.
    apply Array_sort_In in Hx. revert x Hx. apply Forall_forall. exact Hl.
Qed.

(** Stability: an element is moved only behind elements of a strictly
    larger weight, so the elements of any one weight keep their order. *)
Lemma sort_insert_stable (x : R) (a : Topic.t) (l : list Topic.t) :
  Nums (a :: l) ->
  filter (weighs x) (sort_insert by_weight a l) = filter (weighs x) (a :: l).
Proof.
  intros Hn. inversion Hn as [|? ? Ha Hl]; subst. clear Hn.
  induction Hl as [|b l Hb Hl IH]; [reflexivity|].
  cbn [sort_insert]. rewrite (by_weight_gtb a b Ha Hb).
  destruct (Rlt_dec (weightR a) (weightR b)) as [Hlt | Hge]; [|reflexivity].
  cbn [filter] in *. rewrite IH.
  unfold weighs.
  destruct (Req_dec_T (weightR a) x), (Req_dec_T (weightR b) x);
    try reflexivity. lra.
Qed.

Lemma Array_sort_stable (x : R) (l : list Topic.t) :
  Nums l ->
  filter (weighs x) (Array_sort by_weight l) = filter (weighs x) l.
Proof.
  intros Hn. induction Hn as [|a l Ha Hl IH]; [reflexivity|].
  cbn [Array_sort fold_right]. fold (Array_sort by_weight l).
  rewrite sort_insert_stable.
  - cbn [filter]. rewrite IH. reflexivity.
  - constructor; [exact Ha|].
    unfold Nums. rewrite Forall_forall. intros y Hy.
    apply Array_sort_In in Hy. revert y Hy. apply Forall_forall. exact Hl.
Qed.

Lemma qualifying_Nums (stories : list Story.t) : Nums (qualifying_topics stories).
Proof.
  unfold Nums. rewrite Forall_forall. intros t Ht.
  eapply weight_is_Num, qualifying_weight, Ht.
Qed.

Lemma by_weight_transitive :
  Relations_1.Transitive (fun x y : Topic.t => weightR y <= weightR x).
Proof. intros x y z. lra. Qed.


(** ** C6 *)

(** Evaluation of [wordCounts] on a concrete batch: the tokens and the map
    by computation, the guards on the points by linear arithmetic. *)
Ltac counts_eval :=
  lazy -[Rplus Rmult Rminus Rdiv Rinv Ropp IZR INR Req_dec_T];
  repeat match goal with
         | |- context [Req_dec_T ?a ?b] => destruct (Req_dec_T a b); [lra|]
         end;
  repeat f_equal; lra.

Lemma foo_bar_counts :
  wordCounts_of
    [ {| Story.title := Some "foo"%string; Story.points := Some (Num 100) |};
      {| Story.title := Some "foo bar"%string; Story.points := Some (Num 100) |};
      {| Story.title := Some "bar"%string; Story.points := Some (Num 102) |} ] =
  [ ("foo"%string, {| Data.count := 2; Data.points := Num 200 |});
    ("bar"%string, {| Data.count := 2; Data.points := Num 202 |}) ].
Proof. counts_eval. Qed.

Lemma weight_formula_2 (q b : R) :
  1 <= q / 2 ->
  weight_formula 2 q b = 2 * (1 + ln (q / 2) / ln 10) * b.
Proof.
  intros H. unfold weight_formula. cbn [INR]. 
  replace (1 + 1) with 2 by lra. rewrite Rmax_left by lra. reflexivity.
Qed.

Lemma foo_topic :
  to_topic ("foo"%string, {| Data.count := 2; Data.points := Num 200 |}) =
  {| Topic.word := "foo"; Topic.count := 2; Topic.weight := Num 6;
     Topic.isTech := false |}.
Proof.
  unfold to_topic. rewrite weight_of_formula by lia.
  change (has TECH_KEYWORDS "foo") with false. cbv iota.
  rewrite weight_formula_2 by lra.
  replace (200 / 2) with 100 by lra. rewrite log10_100.
  rewrite (round1_at _ 60) by lra. do 2 f_equal. lra.
Qed.

Lemma bar_topic :
  to_topic ("bar"%string, {| Data.count := 2; Data.points := Num 202 |}) =
  {| Topic.word := "bar"; Topic.count := 2; Topic.weight := Num 6;
     Topic.isTech := false |}.
Proof.
  unfold to_topic. rewrite weight_of_formula by lia.
  change (has TECH_KEYWORDS "bar") with false. cbv iota.
  rewrite weight_formula_2 by lra.
  replace (202 / 2) with 101 by lra. pose proof log10_101 as L.
  rewrite (round1_at _ 60) by lra. do 2 f_equal. lra.
Qed.

(** C6 (as stated, refuted): three stories, "foo" (100 points), "foo bar"
    (100) and "bar" (102).  Both words have count 2; the unrounded weight of
    [bar], [2 * (1 + log10 101)], is larger than that of [foo], 6, but both
    round to 6, and [foo], inserted first, is returned first: the order is
    not the descending order of the unrounded weights. *)
Lemma C6_counterexample :
  let stories :=
    [ {| Story.title := Some "foo"%string; Story.points := Some (Num 100) |};
      {| Story.title := Some "foo bar"%string; Story.points := Some (Num 100) |};
      {| Story.title := Some "bar"%string; Story.points := Some (Num 102) |} ] in
  extractTrendingTopics stories None =
    [ {| Topic.word := "foo"; Topic.count := 2; Topic.weight := Num 6;
         Topic.isTech := false |};
      {| Topic.word := "bar"; Topic.count := 2; Topic.weight := Num 6;
         Topic.isTech := false |} ] /\
  wordCounts_of stories =
    [ ("foo"%string, {| Data.count := 2; Data.points := Num 200 |});
      ("bar"%string, {| Data.count := 2; Data.points := Num 202 |}) ] /\
  exists x y,
    weight_of "foo" {| Data.count := 2; Data.points := Num 200 |} = Num x /\
    weight_of "bar" {| Data.count := 2; Data.points := Num 202 |} = Num y /\
    x < y.
Proof.
  cbv zeta. split; [|split; [apply foo_bar_counts|]].
  - unfold extractTrendingTopics, ranked_topics. rewrite foo_bar_counts.
    cbn [map]. rewrite foo_topic, bar_topic.
    cbn [filter Nat.leb Topic.count Array_sort fold_right sort_insert Topic.weight
         Number.sub Number.lift2].
    cmp_eval. reflexivity.
  - do 2 eexists. rewrite !weight_of_formula by lia.
    split; [reflexivity|]. split; [reflexivity|].
    change (has TECH_KEYWORDS "foo") with false.
    change (has TECH_KEYWORDS "bar") with false. cbv iota.
    rewrite !weight_formula_2 by lra.
    replace (200 / 2) with 100 by lra. replace (202 / 2) with 101 by lra.
    rewrite log10_100. pose proof log10_101. lra.
Qed.

(** C6 (amended): the weight of a topic is rounded to one decimal in the
    [map] callback, before the filter, the sort and the slice.  The returned
    list is the first [limit] (15 by default, for [limit >= 0]) of the
    qualifying topics sorted by descending rounded weight, the topics of equal
    rounded weight keeping the insertion order of [wordCounts]; it has at most
    [limit] entries. *)
Theorem C6_sorted_by_returned_weight (stories : list Story.t) (limit : option Z) :
  let q := qualifying_topics stories in
  let ranked := ranked_topics stories in
  let out := extractTrendingTopics stories limit in
  (forall t, In t q ->
     Topic.weight t =
     Num (one_decimal
            (weight_formula (Topic.count t) (points_with (Topic.word t) stories)
                            (if Topic.isTech t then 1.5 else 1)))) /\
  Permutation ranked q /\
  StronglySorted (fun a b => weightR b <= weightR a) ranked /\
  (forall x, filter (weighs x) ranked = filter (weighs x) q) /\
  ((0 <= limit_or_15 limit)%Z ->
   out = firstn (Z.to_nat (limit_or_15 limit)) ranked /\
   (Z.of_nat (List.length out) <= limit_or_15 limit)%Z) /\
  (limit = None -> out = firstn 15 ranked).
Proof.
  intros q ranked out.
  assert (Er : ranked = Array_sort by_weight q) by reflexivity.
  assert (Eo : out = Array_slice0 ranked (limit_or_15 limit)).
  { unfold out, extractTrendingTopics, limit_or_15. destruct limit; reflexivity. }
  split; [apply qualifying_weight|].
  split; [rewrite Er; apply Array_sort_perm|].
  split; [|split; [|split]].
  - rewrite Er. apply Sorted_StronglySorted; [apply by_weight_transitive|].
    apply Array_sort_Sorted, qualifying_Nums.
  - intros x. rewrite Er. apply Array_sort_stable, qualifying_Nums.
  - intros H. rewrite Eo, Array_slice0_nonneg by exact H.
    split; [reflexivity|].
    pose proof (firstn_le_length (Z.to_nat (limit_or_15 limit)) ranked). lia.
  - intros ->. rewrite Eo. apply Array_slice0_nonneg. cbn. lia.
Qed.

Lemma C6_witness :
  let stories :=
    [ {| Story.title := Some "foo"%string; Story.points := Some (Num 100) |};
      {| Story.title := Some "foo bar"%string; Story.points := Some (Num 100) |};
      {| Story.title := Some "bar"%string; Story.points := Some (Num 102) |} ] in
  let foo := {| Topic.word := "foo"; Topic.count := 2; Topic.weight := Num 6;
                Topic.isTech := false |} in
  let bar := {| Topic.word := "bar"; Topic.count := 2; Topic.weight := Num 6;
                Topic.isTech := false |} in
  (0 <= limit_or_15 (Some 1%Z))%Z /\
  qualifying_topics stories = [foo; bar] /\
  ranked_topics stories = [foo; bar] /\
  extractTrendingTopics stories (Some 1%Z) = firstn 1 (ranked_topics stories) /\
  extractTrendingTopics stories (Some 1%Z) = [foo] /\
  (Z.of_nat (List.length (extractTrendingTopics stories (Some 1%Z))) <= 1)%Z.
Proof.
  intros stories foo bar.
  assert (L : (0 <= limit_or_15 (Some 1%Z))%Z) by (cbn; lia).
  assert (Q : qualifying_topics stories = [foo; bar]).
  { unfold qualifying_topics, stories. rewrite foo_bar_counts.
    cbn [map]. rewrite foo_topic, bar_topic. reflexivity. }
  assert (R : ranked_topics stories = [foo; bar]).
  { change (ranked_topics stories)
      with (Array_sort by_weight (qualifying_topics stories)).
    rewrite Q. unfold foo, bar, by_weight.
    cbn [Array_sort fold_right sort_insert Topic.weight Number.sub Number.lift2].
    cmp_eval. reflexivity. }
  destruct (C6_sorted_by_returned_weight stories (Some 1%Z))
    as (_ & _ & _ & _ & H & _).
  destruct (H L) as [E Hlen].
  split; [exact L|]. split; [exact Q|]. split; [exact R|].
  split; [exact E|]. split; [|exact Hlen].
  rewrite E, R. reflexivity.
Defined.

(** ** C9 *)

Lemma rust_foo_counts :
  wordCounts_of
    [ {| Story.title := Some "rust foo"%string; Story.points := Some (Num 11) |};
      {| Story.title := Some "rust foo"%string; Story.points := Some (Num 11) |} ] =
  [ ("rust"%string, {| Data.count := 2; Data.points := Num 22 |});
    ("foo"%string, {| Data.count := 2; Data.points := Num 22 |}) ].
Proof. counts_eval. Qed.

Lemma rust_topic :
  to_topic ("rust"%string, {| Data.count := 2; Data.points := Num 22 |}) =
  {| Topic.word := "rust"; Topic.count := 2; Topic.weight := Num 6.1;
     Topic.isTech := true |}.
Proof.
  unfold to_topic. rewrite weight_of_formula by lia.
  change (has TECH_KEYWORDS "rust") with true. cbv iota.
  rewrite weight_formula_2 by lra.
  replace (22 / 2) with 11 by lra. pose proof log10_11 as L.
  rewrite (round1_at _ 61) by lra. first [reflexivity | do 2 f_equal; lra].
Qed.

Lemma foo_topic_11 :
  to_topic ("foo"%string, {| Data.count := 2; Data.points := Num 22 |}) =
  {| Topic.word := "foo"; Topic.count := 2; Topic.weight := Num 4.1;
     Topic.isTech := false |}.
Proof.
  unfold to_topic. rewrite weight_of_formula by lia.
  change (has TECH_KEYWORDS "foo") with false. cbv iota.
  rewrite weight_formula_2 by lra.
  replace (22 / 2) with 11 by lra. pose proof log10_11 as L.
  rewrite (round1_at _ 41) by lra. first [reflexivity | do 2 f_equal; lra].
Qed.

(** C9 (as stated, refuted on the returned weights): two stories titled
    "rust foo" with 11 points each.  Both words have count 2 and average
    points 11; the tech word [rust] is returned with weight 6.1 and the word
    [foo] with weight 4.1, and 6.1 is not 1.5 times 4.1. *)
Lemma C9_counterexample :
  extractTrendingTopics
    [ {| Story.title := Some "rust foo"%string; Story.points := Some (Num 11) |};
      {| Story.title := Some "rust foo"%string; Story.points := Some (Num 11) |} ]
    None =
    [ {| Topic.word := "rust"; Topic.count := 2; Topic.weight := Num 6.1;
         Topic.isTech := true |};
      {| Topic.word := "foo"; Topic.count := 2; Topic.weight := Num 4.1;
         Topic.isTech := false |} ] /\
  6.1 <> 1.5 * 4.1.
Proof.
  split; [|lra].
  unfold extractTrendingTopics, ranked_topics. rewrite rust_foo_counts.
  cbn [map]. rewrite rust_topic, foo_topic_11.
  cbn [filter Nat.leb Topic.count Array_sort fold_right sort_insert Topic.weight
       Number.sub Number.lift2].
  cmp_eval. reflexivity.
Qed.

(** C9 (amended): for the same count and points (hence the same average
    points), the weight computed by
    [count * (1 + log10(max(avgPoints, 1))) * techBonus] for a word of the
    tech-keyword set is exactly 1.5 times the one computed for a word outside
    it; the weight a topic is returned with is this value rounded to one
    decimal, so the returned weights are in the ratio 1.5 only up to the
    rounding. *)
Theorem C9_tech_bonus (tech plain : string) (c : nat) (q : R) :
  has TECH_KEYWORDS tech = true -> has TECH_KEYWORDS plain = false ->
  (1 <= c)%nat ->
  let d := {| Data.count := c; Data.points := Num q |} in
  let x := INR c * (1 + ln (Rmax (q / INR c) 1) / ln 10) in
  weight_of plain d = Num (x * 1) /\
  weight_of tech d = Num (x * 1.5) /\
  x * 1.5 = 1.5 * (x * 1) /\
  Topic.weight (to_topic (plain, d)) = round1 (Num (x * 1)) /\
  Topic.weight (to_topic (tech, d)) = round1 (Num (x * 1.5)) /\
  Topic.isTech (to_topic (plain, d)) = false /\
  Topic.isTech (to_topic (tech, d)) = true.
Proof.
  intros Ht Hp Hc d x.
  assert (Ep : weight_of plain d = Num (x * 1)).
  { unfold d. rewrite weight_of_formula by exact Hc. rewrite Hp. reflexivity. }
  assert (Et : weight_of tech d = Num (x * 1.5)).
  { unfold d. rewrite weight_of_formula by exact Hc. rewrite Ht. reflexivity. }
  split; [exact Ep|]. split; [exact Et|]. split; [lra|].
  unfold to_topic. cbn [Topic.weight Topic.isTech]. rewrite Ep, Et.
  repeat split; assumption.
Qed.

Lemma C9_witness :
  has TECH_KEYWORDS "rust" = true /\ has TECH_KEYWORDS "foo" = false /\
  (1 <= 2)%nat /\
  weight_of "rust" {| Data.count := 2; Data.points := Num 22 |} =
    Num (INR 2 * (1 + ln (Rmax (22 / INR 2) 1) / ln 10) * 1.5).
Proof.
  split; [reflexivity|]. split; [reflexivity|]. split; [lia|].
  apply (C9_tech_bonus "rust" "foo" 2 22); [reflexivity | reflexivity | lia].
Defined.

(** * Further properties *)

(** ** calculateHotness *)

Lemma round1_0 : round1 (Num 0) = Num 0.
Proof. rewrite (round1_at 0 0) by lra. f_equal. lra. Qed.

Lemma calculateHotness_zero_points (clock tv : Z) :
  calculateHotness clock (Num 0) (VDate (Some tv)) =
  {| score := Num 0; velocity := Num 0; level := cold; reason := None;
     hoursOld := Some (round1 (Num (hoursR clock tv))) |}.
Proof.
  pose proof (hoursR_floor clock tv) as Hf.
  destruct (calculateHotness_date clock (Num 0) (Some tv))
    as (Es & Ev & Eh & El & Er).
  cbv zeta in Es, Ev, Eh, El, Er.
  rewrite scoreOf_valid in Es, El, Er. rewrite hoursOld_valid in Ev, Eh, Er.
  assert (S0 : scoreR 0 (hoursR clock tv) = 0) by (unfold scoreR; lra).
  assert (V0 : Hot.velocity (Num 0) (Num (hoursR clock tv)) = Num 0).
  { cbn. f_equal. lra. }
  rewrite S0 in Es, El, Er. rewrite V0 in Ev.
  assert (L0 : levelOf (Num 0) = cold) by (unfold levelOf; cmp_eval; reflexivity).
  rewrite L0 in El, Er. rewrite round1_0 in Es, Ev.
  destruct (calculateHotness clock (Num 0) (VDate (Some tv))); cbn in *.
  congruence.
Qed.

(** A story without points is cold at any age, with score and velocity 0
    and no reason; so is a story with a negative number of points, or with
    [NaN] for points. *)
Theorem no_points_is_cold (clock tv : Z) :
  calculateHotness clock (Num 0) (VDate (Some tv)) =
  {| score := Num 0; velocity := Num 0; level := cold; reason := None;
     hoursOld := Some (round1 (Num (hoursR clock tv))) |} /\
  (forall p, p <= 0 ->
     level (calculateHotness clock (Num p) (VDate (Some tv))) = cold /\
     reason (calculateHotness clock (Num p) (VDate (Some tv))) = None) /\
  level (calculateHotness clock NaN (VDate (Some tv))) = cold /\
  reason (calculateHotness clock NaN (VDate (Some tv))) = None /\
  score (calculateHotness clock NaN (VDate (Some tv))) = NaN.
Proof.
  split; [apply calculateHotness_zero_points|]. split.
  - intros p Hp.
    destruct (calculateHotness_date clock (Num p) (Some tv))
      as (_ & _ & _ & El & Er).
    cbv zeta in El, Er. rewrite scoreOf_valid in El, Er.
    pose proof (hoursR_floor clock tv) as Hf.
    pose proof (multR_ge_1 (hoursR clock tv)) as Hm.
    assert (Hs : scoreR p (hoursR clock tv) <= 0).
    { unfold scoreR.
      assert (p / hoursR clock tv <= 0).
      { unfold Rdiv. assert (0 < / hoursR clock tv)
          by (apply Rinv_0_lt_compat; lra). nra. }
      nra. }
    assert (L : levelOf (Num (scoreR p (hoursR clock tv))) = cold).
    { unfold levelOf. cmp_eval. reflexivity. }
    rewrite L in El, Er. split; assumption.
  - destruct (calculateHotness_date clock NaN (Some tv))
      as (Es & _ & _ & El & Er).
    cbv zeta in Es, El, Er.
    assert (S : Hot.scoreOf clock NaN (VDate (Some tv)) = NaN) by reflexivity.
    rewrite S in Es, El, Er. cbn in Es, El, Er.
    repeat split; assumption.
Qed.

Lemma calculateHotness_same_age (clock : Z) (points : number) (tv1 tv2 : option Z) :
  Hot.hoursOld clock (VDate tv1) = Hot.hoursOld clock (VDate tv2) ->
  calculateHotness clock points (VDate tv1) =
  calculateHotness clock points (VDate tv2).
Proof.
  intros H. unfold calculateHotness. cbn [truthy instanceof_Date negb orb].
  rewrite H. reflexivity.
Qed.

(** A story posted less than six minutes ago, or dated in the future, gets
    the result of a story posted at this instant. *)
Theorem young_story_scored_as_new (clock : Z) (points : number) (tv : Z) :
  (clock - tv <= 360000)%Z ->
  calculateHotness clock points (VDate (Some tv)) =
  calculateHotness clock points (VDate (Some clock)) /\
  hoursOld (calculateHotness clock points (VDate (Some tv))) = Some (Num 0.1).
Proof.
  intros H.
  assert (E : Hot.hoursOld clock (VDate (Some tv)) = Num 0.1).
  { rewrite hoursOld_valid, hoursR_under_floor by exact H. reflexivity. }
  split.
  - apply calculateHotness_same_age. rewrite E, hoursOld_valid.
    rewrite hoursR_under_floor by lia. reflexivity.
  - destruct (calculateHotness_date clock points (Some tv)) as (_ & _ & Eh & _).
    cbv zeta in Eh. rewrite Eh, E. f_equal.
    rewrite (round1_at 0.1 1) by lra. first [reflexivity | f_equal; lra].
Qed.

Lemma young_story_scored_as_new_witness :
  (1000 - 5000 <= 360000)%Z /\
  hoursOld (calculateHotness 1000 (Num 7) (VDate (Some 5000%Z))) = Some (Num 0.1).
Proof.
  split; [lia|]. apply (young_story_scored_as_new 1000 (Num 7) 5000). lia.
Defined.

Lemma scoreR_monotone (p1 p2 h1 h2 : R) :
  0 <= p1 <= p2 -> 0 < h2 <= h1 -> scoreR p1 h1 <= scoreR p2 h2.
Proof.
  intros [Hp Hpp] [Hh Hhh]. unfold scoreR.
  pose proof (multR_antitone h2 h1 Hhh) as Hm.
  pose proof (multR_ge_1 h1) as Hm1.
  assert (Hi : / h1 <= / h2) by (apply Rinv_le_contravar; lra).
  assert (Hi0 : 0 < / h1) by (apply Rinv_0_lt_compat; lra).
  assert (Hv : p1 / h1 <= p2 / h2).
  { unfold Rdiv. apply Rmult_le_compat; lra. }
  assert (Hv0 : 0 <= p1 / h1).
  { unfold Rdiv. apply Rmult_le_pos; lra. }
  apply Rmult_le_compat; lra.
Qed.

(** With more points, or with a later timestamp, the level of a story is not
    lower. *)
Theorem level_monotone (clock : Z) (p1 p2 : R) (tv1 tv2 : Z) :
  0 <= p1 <= p2 -> (tv1 <= tv2)%Z ->
  (rank (level (calculateHotness clock (Num p1) (VDate (Some tv1)))) <=
   rank (level (calculateHotness clock (Num p2) (VDate (Some tv2)))))%nat.
Proof.
  intros Hp Ht. rewrite !level_valid. apply levelOf_mono.
  apply scoreR_monotone; [exact Hp|].
  pose proof (hoursR_floor clock tv2). split; [lra|].
  apply hoursR_mono. lia.
Qed.

Lemma level_monotone_witness :
  0 <= 10 <= 20 /\ (0 <= 5)%Z /\
  (rank (level (calculateHotness 7200000 (Num 10) (VDate (Some 0%Z)))) <=
   rank (level (calculateHotness 7200000 (Num 20) (VDate (Some 5%Z)))))%nat.
Proof.
  split; [lra|]. split; [lia|].
  apply (level_monotone 7200000 10 20 0 5); [lra | lia].
Defined.

(** For [points >= 0] the unrounded score lies between the velocity and
    2.975 times the velocity; the returned velocity, score and hoursOld are
    numbers with [0 <= velocity <= score] and [hoursOld >= 0.1]. *)
Theorem score_bounds (clock : Z) (p : R) (tv : Z) :
  0 <= p ->
  let h := hoursR clock tv in
  let r := calculateHotness clock (Num p) (VDate (Some tv)) in
  p / h <= scoreR p h <= 2.975 * (p / h) /\
  exists s v a,
    score r = Num s /\ velocity r = Num v /\ hoursOld r = Some (Num a) /\
    0 <= v <= s /\ 0.1 <= a.
Proof.
  intros Hp h r.
  pose proof (hoursR_floor clock tv) as Hf. fold h in Hf.
  pose proof (multR_ge_1 h) as Hm1.
  assert (Hm2 : multR h <= 2.975) by (unfold multR; apply Rmax_lub; lra).
  assert (Hv : 0 <= p / h).
  { unfold Rdiv. apply Rmult_le_pos; [lra|].
    apply Rlt_le, Rinv_0_lt_compat. lra. }
  assert (Hs : p / h <= scoreR p h <= 2.975 * (p / h)).
  { unfold scoreR. split; nra. }
  split; [exact Hs|].
  destruct (calculateHotness_date clock (Num p) (Some tv))
    as (Es & Ev & Eh & _).
  cbv zeta in Es, Ev, Eh. fold r in Es, Ev, Eh.
  rewrite scoreOf_valid in Es. rewrite hoursOld_valid in Ev, Eh.
  fold h in Es, Ev, Eh.
  destruct (round1_le 0 (p / h) Hv) as (z & v & Ez & E1 & Hzv).
  destruct (round1_le (p / h) (scoreR p h) (proj1 Hs)) as (v' & s & E2 & E3 & Hvs).
  destruct (round1_le 0.1 h Hf) as (f & a & Ef & E4 & Hfa).
  rewrite round1_0 in Ez. rewrite (round1_at 0.1 1) in Ef by lra.
  injection Ez as <-. injection Ef as <-.
  change (Hot.velocity (Num p) (Num h)) with (Num (p / h)) in Ev.
  rewrite E1 in E2. injection E2 as <-.
  exists s, v, a. rewrite Es, Ev, Eh, E1, E3, E4.
  repeat split; try reflexivity; lra.
Qed.

Lemma score_bounds_witness :
  0 <= 10 /\
  10 / hoursR 7200000 0 <= scoreR 10 (hoursR 7200000 0).
Proof.
  split; [lra|]. apply (score_bounds 7200000 10 0). lra.
Defined.

(** ** calculateDiscussionIntensity *)

Lemma discussion_cases (c : R) (points : option number) :
  10 <= c ->
  calculateDiscussionIntensity (Some (Num c)) points =
  if Number.geb (Num c) (Num 200) then Some (intense_of c)
  else if (if Number.gtb (toNumber points) (Num 0)
           then Number.gtb (Number.div (Num c) (toNumber points)) (Num 2)
           else false) && Number.geb (Num c) (Num 50)
       then Some controversial_result
  else if Number.geb (Num c) (Num 100) then Some (active_of c)
  else None.
Proof.
  intros H. unfold calculateDiscussionIntensity. cbn [truthyN toNumber].
  rewrite (proj2 (truthy_Num c)) by lra.
  rewrite (proj2 (ltb_false c 10)) by lra. cbn [negb orb].
  destruct (Number.gtb (toNumber points) (Num 0)).
  - reflexivity.
  - rewrite (proj2 (gtb_false 0 2)) by lra. reflexivity.
Qed.

Lemma discussion_below_10 (c : R) (points : option number) :
  c < 10 -> calculateDiscussionIntensity (Some (Num c)) points = None.
Proof.
  intros H. unfold calculateDiscussionIntensity. cbn [truthyN toNumber].
  rewrite (proj2 (ltb_true c 10) H), orb_true_r. reflexivity.
Qed.

(** The result is [controversial] exactly for 50 to 199 comments that are
    more than twice the points, the points being positive. *)
Theorem controversial_iff (c p : R) :
  option_map dlevel (calculateDiscussionIntensity (Some (Num c)) (Some (Num p))) =
    Some controversial
  <-> 50 <= c < 200 /\ 0 < p /\ 2 * p < c.
Proof.
  destruct (Rlt_dec c 10) as [Hc | Hc].
  - assert (E : calculateDiscussionIntensity (Some (Num c)) (Some (Num p)) = None).
    { apply discussion_below_10, Hc. }
    rewrite E. cbn. split; [discriminate | lra].
  - rewrite discussion_cases by lra. cbn [toNumber Number.div Number.lift2].
    destruct (Number.geb (Num c) (Num 200)) eqn:E200;
      [apply geb_true in E200 | apply geb_false in E200].
    { cbn. split; [discriminate | lra]. }
    destruct (Number.gtb (Num p) (Num 0)) eqn:Ep;
      [apply gtb_true in Ep | apply gtb_false in Ep].
    + destruct (Number.gtb (Num (c / p)) (Num 2)) eqn:Er;
        [apply gtb_true in Er | apply gtb_false in Er];
      destruct (Number.geb (Num c) (Num 50)) eqn:E50;
        [apply geb_true in E50 | apply geb_false in E50
        |apply geb_true in E50 | apply geb_false in E50]; cbn [andb].
      * cbn. split; [intros _|reflexivity].
        assert (2 * p < c / p * p) by (apply Rmult_lt_compat_r; lra).
        replace (c / p * p) with c in * by (field; lra). lra.
      * destruct (Number.geb (Num c) (Num 100)) eqn:E100;
          [apply geb_true in E100; lra|].
        cbn. split; [discriminate | lra].
      * assert (c / p * p <= 2 * p) by (apply Rmult_le_compat_r; lra).
        replace (c / p * p) with c in * by (field; lra).
        destruct (Number.geb (Num c) (Num 100)); cbn; split;
          try discriminate; lra.
      * destruct (Number.geb (Num c) (Num 100)); cbn; split;
          try discriminate; lra.
    + cbn [andb].
      destruct (Number.geb (Num c) (Num 100)); cbn; split;
        try discriminate; lra.
Qed.

(** For a story without points ([null], [NaN], 0 or a negative number) the
    result depends on the number of comments alone: [intense] from 200,
    [active] from 100 to 199, [null] below; it is never [controversial]. *)
Theorem discussion_without_points (c : R) (points : option number) :
  points = None \/ points = Some NaN \/ (exists p, points = Some (Num p) /\ p <= 0) ->
  calculateDiscussionIntensity (Some (Num c)) points =
  if Rle_dec 200 c then Some (intense_of c)
  else if Rle_dec 100 c then Some (active_of c)
  else None.
Proof.
  intros H.
  assert (G : Number.gtb (toNumber points) (Num 0) = false).
  { destruct H as [-> | [-> | (p & -> & Hp)]]; cbn [toNumber].
    - apply gtb_false. lra.
    - reflexivity.
    - apply gtb_false. exact Hp. }
  destruct (Rlt_dec c 10) as [Hc | Hc].
  - rewrite discussion_below_10 by exact Hc.
    destruct (Rle_dec 200 c); [lra|]. destruct (Rle_dec 100 c); [lra|].
    reflexivity.
  - rewrite discussion_cases by lra. rewrite G. cbn [andb].
    destruct (Rle_dec 200 c).
    + rewrite (proj2 (geb_true c 200)) by lra. reflexivity.
    + rewrite (proj2 (geb_false c 200)) by lra.
      destruct (Rle_dec 100 c).
      * rewrite (proj2 (geb_true c 100)) by lra. reflexivity.
      * rewrite (proj2 (geb_false c 100)) by lra. reflexivity.
Qed.

Lemma discussion_without_points_witness :
  (@None number = None \/ @None number = Some NaN \/
   (exists p, @None number = Some (Num p) /\ p <= 0)) /\
  calculateDiscussionIntensity (Some (Num 150)) None =
  if Rle_dec 200 150 then Some (intense_of 150)
  else if Rle_dec 100 150 then Some (active_of 150)
  else None.
Proof.
  split; [left; reflexivity|].
  apply (discussion_without_points 150 None). left. reflexivity.
Defined.

(** ** getWhyItsHot *)

(** The reasons the two calculators produce are non-empty strings. *)
Lemma hotness_reason_truthy (clock : Z) (points : number) (timestamp : value) :
  truthy_reason (reason (calculateHotness clock points timestamp)) =
  match reason (calculateHotness clock points timestamp) with
  | Some _ => true
  | None => false
  end.
Proof.
  destruct timestamp as [| | b | n | s | tv];
    try (rewrite calculateHotness_not_date by (right; reflexivity); reflexivity).
  destruct (calculateHotness_date clock points tv) as (_ & _ & _ & _ & Er).
  cbv zeta in Er. rewrite Er.
  destruct (levelOf (Hot.scoreOf clock points (VDate tv))); try reflexivity.
  destruct (Number.ltb (Hot.hoursOld clock (VDate tv)) (Num 2)); reflexivity.
Qed.

Lemma discussion_reason_truthy (commentCount points : option number) (d : DiscussionResult) :
  calculateDiscussionIntensity commentCount points = Some d ->
  template_truthy (dreason d) = true.
Proof.
  unfold calculateDiscussionIntensity.
  repeat match goal with
         | |- context [if ?b then _ else _] => destruct b
         end; intros [= <-]; reflexivity.
Qed.

(** On the results of the two calculators, the explanation shown is the
    reason of the hotness if it has one, else the reason of the discussion,
    else none: the discussion is looked at only when the hotness gives no
    reason.  A story with neither result (an article of NewsAPI) has no
    explanation. *)
Theorem getWhyItsHot_priority
  (clock : Z) (points : number) (timestamp : value) (commentCount pts : option number) :
  let h := calculateHotness clock points timestamp in
  let d := calculateDiscussionIntensity commentCount pts in
  getWhyItsHot (Some h) d =
    match reason h with
    | Some r => Some r
    | None => option_map dreason d
    end /\
  (getWhyItsHot (Some h) d = None <-> reason h = None /\ d = None) /\
  getWhyItsHot None d = option_map dreason d /\
  getWhyItsHot None None = None.
Proof.
  intros h d.
  assert (D : forall ho, truthy_reason (match ho with Some h => reason h | None => None end) = false ->
                    getWhyItsHot ho d = option_map dreason d).
  { intros ho Hh. unfold getWhyItsHot. rewrite Hh.
    destruct d as [x|] eqn:Ed; [|reflexivity].
    cbn [truthy_reason option_map].
    rewrite (discussion_reason_truthy commentCount pts x Ed). reflexivity. }
  assert (E : getWhyItsHot (Some h) d =
              match reason h with
              | Some r => Some r
              | None => option_map dreason d
              end).
  { pose proof (hotness_reason_truthy clock points timestamp) as T. fold h in T.
    destruct (reason h) as [r|] eqn:Er.
    - unfold getWhyItsHot. rewrite Er, T. reflexivity.
    - apply D. rewrite Er. reflexivity. }
  split; [exact E|]. split; [|split].
  - rewrite E. destruct (reason h); [split; [discriminate | intros [? _]; discriminate]|].
    destruct d; cbn; split; try discriminate; try tauto.
    intros [_ ?]. discriminate.
  - apply D. reflexivity.
  - reflexivity.
Qed.

(** ** formatStory *)

Lemma calculateHotness_invalid_date (clock : Z) (points : number) :
  calculateHotness clock points (VDate None) =
  {| score := NaN; velocity := NaN; level := cold; reason := None;
     hoursOld := Some NaN |}.
Proof.
  unfold calculateHotness, Hot.hoursOld, Hot.velocity. cbn.
  destruct points; reflexivity.
Qed.

Lemma formatStory_timestamp
  (extractDomain : option string -> string) (clock0 clock : Z)
  (story : Raw.t) (rank : nat) :
  exists tv,
    Formatted.timestamp (formatStory extractDomain clock0 clock story rank) =
      VDate tv /\
    Formatted.hotness (formatStory extractDomain clock0 clock story rank) =
      calculateHotness clock (points_or_0 (Raw.score story)) (VDate tv).
Proof.
  unfold formatStory. cbn [Formatted.timestamp Formatted.hotness].
  destruct (Raw.time story) as [t|].
  - destruct (t =? 0)%Z.
    + eexists. split; reflexivity.
    + unfold Date_of_ms. eexists. split; reflexivity.
  - eexists. split; reflexivity.
Qed.

(** The timestamp [formatStory] builds is always a [Date], so the hotness of
    a formatted story is never the degraded result of [calculateHotness]: it
    always has the [hoursOld] property. *)
Theorem formatStory_never_degraded
  (extractDomain : option string -> string) (clock0 clock : Z)
  (story : Raw.t) (rank : nat) :
  let f := formatStory extractDomain clock0 clock story rank in
  instanceof_Date (Formatted.timestamp f) = true /\
  hoursOld (Formatted.hotness f) <> None /\
  Formatted.hotness f <> sentinel.
Proof.
  intros f.
  destruct (formatStory_timestamp extractDomain clock0 clock story rank)
    as (tv & Et & Eh).
  fold f in Et, Eh.
  destruct (calculateHotness_date clock (points_or_0 (Raw.score story)) tv)
    as (_ & _ & E & _).
  cbv zeta in E.
  assert (H : hoursOld (Formatted.hotness f) <> None).
  { rewrite Eh, E. discriminate. }
  split; [rewrite Et; reflexivity|]. split; [exact H|].
  intros C. apply H. rewrite C. reflexivity.
Qed.

(** A story without [time] (or with [time] 0) is stamped with the clock; if
    the hotness is computed within six minutes of that, the story is scored
    as six minutes old: [hoursOld] is 0.1, and the result is that of a story
    posted at the instant of the computation. *)
Theorem formatStory_missing_time
  (extractDomain : option string -> string) (clock0 clock : Z)
  (story : Raw.t) (rank : nat) :
  Raw.time story = None \/ Raw.time story = Some 0%Z ->
  (clock - clock0 <= 360000)%Z ->
  let f := formatStory extractDomain clock0 clock story rank in
  Formatted.timestamp f = VDate (Some clock0) /\
  Formatted.hotness f =
    calculateHotness clock (Formatted.points f) (VDate (Some clock)) /\
  hoursOld (Formatted.hotness f) = Some (Num 0.1).
Proof.
  intros Ht Hc f.
  assert (Et : Formatted.timestamp f = VDate (Some clock0)).
  { unfold f, formatStory. cbn [Formatted.timestamp].
    destruct Ht as [-> | ->]; reflexivity. }
  assert (Eh : Formatted.hotness f =
               calculateHotness clock (Formatted.points f) (VDate (Some clock0))).
  { unfold f, formatStory. cbn [Formatted.hotness Formatted.points].
    destruct Ht as [-> | ->]; reflexivity. }
  assert (E0 : Hot.hoursOld clock (VDate (Some clock0)) = Num 0.1).
  { rewrite hoursOld_valid, hoursR_under_floor by exact Hc. reflexivity. }
  split; [exact Et|]. split.
  - rewrite Eh. apply calculateHotness_same_age.
    rewrite E0, hoursOld_valid, hoursR_under_floor by lia. reflexivity.
  - rewrite Eh.
    destruct (calculateHotness_date clock (Formatted.points f) (Some clock0))
      as (_ & _ & E & _).
    cbv zeta in E. rewrite E, E0. f_equal.
    rewrite (round1_at 0.1 1) by lra. first [reflexivity | f_equal; lra].
Qed.

Lemma formatStory_missing_time_witness :
  let story := {| Raw.id := Num 1; Raw.title := Some "Rust"%string;
                  Raw.url := None; Raw.author := None;
                  Raw.score := Some (Num 12); Raw.descendants := None;
                  Raw.time := None |} in
  (Raw.time story = None \/ Raw.time story = Some 0%Z) /\
  (1005 - 1000 <= 360000)%Z /\
  hoursOld (Formatted.hotness
              (formatStory (fun _ => EmptyString) 1000 1005 story 1)) =
    Some (Num 0.1).
Proof.
  cbv zeta. split; [left; reflexivity|]. split; [lia|].
  apply (formatStory_missing_time (fun _ => EmptyString) 1000 1005
           {| Raw.id := Num 1; Raw.title := Some "Rust"%string;
              Raw.url := None; Raw.author := None;
              Raw.score := Some (Num 12); Raw.descendants := None;
              Raw.time := None |} 1);
    [left; reflexivity | lia].
Defined.

(** A [time] beyond the range of [Date] (more than 8.64e12 seconds from the
    epoch) gives an invalid date, which [calculateHotness] lets through:
    score, velocity and hoursOld of the formatted story are [NaN] and its
    level is [cold], while [formatRelativeTime] shows the empty string for
    the same timestamp. *)
Theorem formatStory_time_out_of_range
  (extractDomain : option string -> string) (clock0 clock now : Z)
  (story : Raw.t) (rank : nat) (t : Z) :
  Raw.time story = Some t -> (8640000000000000 < Z.abs (t * 1000))%Z ->
  let f := formatStory extractDomain clock0 clock story rank in
  Formatted.timestamp f = VDate None /\
  Formatted.hotness f =
    {| score := NaN; velocity := NaN; level := cold; reason := None;
       hoursOld := Some NaN |} /\
  formatRelativeTime now (Formatted.timestamp f) = [Text ""%string].
Proof.
  intros Ht Hr f.
  assert (T0 : (t =? 0)%Z = false) by (apply Z.eqb_neq; lia).
  assert (T1 : (Z.abs (t * 1000) <=? 8640000000000000)%Z = false)
    by (apply Z.leb_gt; exact Hr).
  assert (Et : Formatted.timestamp f = VDate None).
  { unfold f, formatStory. cbn [Formatted.timestamp].
    rewrite Ht, T0. unfold Date_of_ms. rewrite T1. reflexivity. }
  split; [exact Et|]. split.
  - unfold f, formatStory. cbn [Formatted.hotness].
    rewrite Ht, T0. unfold Date_of_ms. rewrite T1.
    apply calculateHotness_invalid_date.
  - rewrite Et. reflexivity.
Qed.

Lemma formatStory_time_out_of_range_witness :
  let story := {| Raw.id := Num 1; Raw.title := Some "Rust"%string;
                  Raw.url := None; Raw.author := None;
                  Raw.score := Some (Num 12); Raw.descendants := None;
                  Raw.time := Some 9000000000000%Z |} in
  Raw.time story = Some 9000000000000%Z /\
  (8640000000000000 < Z.abs (9000000000000 * 1000))%Z /\
  score (Formatted.hotness
           (formatStory (fun _ => EmptyString) 1000 1005 story 1)) = NaN.
Proof.
  cbv zeta. split; [reflexivity|]. split; [lia|].
  destruct (formatStory_time_out_of_range (fun _ => EmptyString) 1000 1005 0
              {| Raw.id := Num 1; Raw.title := Some "Rust"%string;
                 Raw.url := None; Raw.author := None;
                 Raw.score := Some (Num 12); Raw.descendants := None;
                 Raw.time := Some 9000000000000%Z |} 1 9000000000000
              eq_refl ltac:(lia)) as (_ & H & _).
  rewrite H. reflexivity.
Defined.

Lemma points_or_0_falsy (p : option number) :
  p = None \/ p = Some NaN \/ p = Some (Num 0) -> points_or_0 p = Num 0.
Proof.
  intros [-> | [-> | ->]]; try reflexivity.
  unfold points_or_0. cbn. destruct (Req_dec_T 0 0); [reflexivity | lra].
Qed.

(** A story without [score] gets 0 points: whatever its time, its level is
    [cold] and its hotness gives no reason, so the explanation shown for it
    is the reason of its discussion, which the number of comments alone
    decides. *)
Theorem formatStory_missing_score
  (extractDomain : option string -> string) (clock0 clock : Z)
  (story : Raw.t) (rank : nat) :
  Raw.score story = None \/ Raw.score story = Some NaN \/
  Raw.score story = Some (Num 0) ->
  let f := formatStory extractDomain clock0 clock story rank in
  Formatted.points f = Num 0 /\
  level (Formatted.hotness f) = cold /\
  reason (Formatted.hotness f) = None /\
  getWhyItsHot (Some (Formatted.hotness f)) (Formatted.discussion f) =
    option_map dreason (Formatted.discussion f) /\
  Formatted.discussion f =
    calculateDiscussionIntensity (Some (Formatted.commentCount f)) (Some (Num 0)).
Proof.
  intros Hs f.
  pose proof (points_or_0_falsy _ Hs) as P.
  destruct (formatStory_timestamp extractDomain clock0 clock story rank)
    as (tv & _ & Eh).
  fold f in Eh. rewrite P in Eh.
  assert (L : level (Formatted.hotness f) = cold /\
              reason (Formatted.hotness f) = None).
  { rewrite Eh. destruct tv as [tv|].
    - rewrite calculateHotness_zero_points. split; reflexivity.
    - rewrite calculateHotness_invalid_date. split; reflexivity. }
  destruct L as [L1 L2].
  split; [exact P|]. split; [exact L1|]. split; [exact L2|]. split.
  - unfold getWhyItsHot. rewrite L2. cbn [truthy_reason].
    unfold f, formatStory. cbn [Formatted.discussion].
    destruct (calculateDiscussionIntensity _ _) as [d|] eqn:Ed; [|reflexivity].
    cbn [truthy_reason option_map].
    rewrite (discussion_reason_truthy _ _ d Ed). reflexivity.
  - unfold f, formatStory. cbn [Formatted.discussion Formatted.commentCount].
    rewrite P. reflexivity.
Qed.

Lemma formatStory_missing_score_witness :
  let story := {| Raw.id := Num 1; Raw.title := Some "Rust"%string;
                  Raw.url := None; Raw.author := None;
                  Raw.score := None; Raw.descendants := Some (Num 120);
                  Raw.time := Some 1700000000%Z |} in
  (Raw.score story = None \/ Raw.score story = Some NaN \/
   Raw.score story = Some (Num 0)) /\
  level (Formatted.hotness
           (formatStory (fun _ => EmptyString) 1000 1005 story 1)) = cold.
Proof.
  cbv zeta. split; [left; reflexivity|].
  apply (formatStory_missing_score (fun _ => EmptyString) 1000 1005
           {| Raw.id := Num 1; Raw.title := Some "Rust"%string;
              Raw.url := None; Raw.author := None;
              Raw.score := None; Raw.descendants := Some (Num 120);
              Raw.time := Some 1700000000%Z |} 1).
  left. reflexivity.
Defined.

(** ** formatRelativeTime *)

Lemma formatRelativeTime_valid (clock tv : Z) :
  formatRelativeTime clock (VDate (Some tv)) =
  let a := (clock - tv)%Z in
  if (a / 1000 <? 60)%Z then [Text "just now"%string]
  else if (a / 1000 / 60 <? 60)%Z then ago (a / 1000 / 60) "m ago"
  else if (a / 1000 / 60 / 60 <? 24)%Z then ago (a / 1000 / 60 / 60) "h ago"
  else if (a / 1000 / 60 / 60 / 24 <? 7)%Z then ago (a / 1000 / 60 / 60 / 24) "d ago"
  else if (a / 1000 / 60 / 60 / 24 / 7 <? 4)%Z
       then ago (a / 1000 / 60 / 60 / 24 / 7) "w ago"
  else if (a / 1000 / 60 / 60 / 24 / 30 <? 12)%Z
       then ago (a / 1000 / 60 / 60 / 24 / 30) "mo ago"
  else ago (a / 1000 / 60 / 60 / 24 / 365) "y ago".
Proof. reflexivity. Qed.

(** Linear arithmetic with the quotients by constants. *)
Ltac zdiv := Z.to_euclidean_division_equations; lia.

Ltac ltb_cases :=
  repeat match goal with
         | |- context [(?x <? ?y)%Z] => destruct (Z.ltb_spec x y); try zdiv
         end.

(** No date, a value that is not a [Date] and an invalid [Date] give the
    empty string; a date less than a minute before the clock, or after it,
    gives "just now". *)
Theorem formatRelativeTime_edges (clock : Z) (date : value) :
  (truthy date = false \/ instanceof_Date date = false \/ date = VDate None ->
   formatRelativeTime clock date = [Text ""%string]) /\
  (forall tv, date = VDate (Some tv) -> (clock - tv < 60000)%Z ->
   formatRelativeTime clock date = [Text "just now"%string]) /\
  (forall tv, date = VDate (Some tv) ->
   formatRelativeTime clock date <> [Text ""%string]).
Proof.
  split; [|split].
  - intros [H | [H | ->]]; unfold formatRelativeTime.
    + rewrite H. reflexivity.
    + rewrite H, orb_true_r. reflexivity.
    + reflexivity.
  - intros tv -> H. rewrite formatRelativeTime_valid. cbv zeta.
    ltb_cases. reflexivity.
  - intros tv ->. rewrite formatRelativeTime_valid. cbv zeta. unfold ago.
    ltb_cases; discriminate.
Qed.

Lemma formatRelativeTime_edges_witness :
  (truthy (VString "2024-01-01") = false \/
   instanceof_Date (VString "2024-01-01") = false \/
   VString "2024-01-01" = VDate None) /\
  formatRelativeTime 1000 (VString "2024-01-01") = [Text ""%string].
Proof.
  split; [right; left; reflexivity|].
  apply (formatRelativeTime_edges 1000 (VString "2024-01-01")).
  right. left. reflexivity.
Defined.

(** From one minute on, the number shown is the age in whole units: minutes
    below an hour, hours below a day, days below a week, weeks below 28 days,
    periods of 30 days from 28 days to 360 days, periods of 365 days from 360
    days on.  The age [clock - tv] is in milliseconds. *)
Theorem formatRelativeTime_units (clock tv : Z) :
  let a := (clock - tv)%Z in
  let r := formatRelativeTime clock (VDate (Some tv)) in
  ((60000 <= a < 3600000)%Z -> r = ago (a / 60000) "m ago") /\
  ((3600000 <= a < 86400000)%Z -> r = ago (a / 3600000) "h ago") /\
  ((86400000 <= a < 604800000)%Z -> r = ago (a / 86400000) "d ago") /\
  ((604800000 <= a < 2419200000)%Z -> r = ago (a / 604800000) "w ago") /\
  ((2419200000 <= a < 31104000000)%Z -> r = ago (a / 2592000000) "mo ago") /\
  ((31104000000 <= a)%Z -> r = ago (a / 31536000000) "y ago").
Proof.
  intros a r. unfold r. rewrite formatRelativeTime_valid. cbv zeta. fold a.
  repeat split; intros H; ltb_cases; unfold ago; do 3 f_equal; zdiv.
Qed.

Lemma formatRelativeTime_units_witness :
  (60000 <= 7200000 - 7000000 < 3600000)%Z /\
  formatRelativeTime 7200000 (VDate (Some 7000000%Z)) =
    ago ((7200000 - 7000000) / 60000) "m ago".
Proof.
  split; [lia|].
  apply (formatRelativeTime_units 7200000 7000000). lia.
Defined.

(** Two windows show a count of zero: a date from 28 up to 30 days old is
    "0mo ago" (it is no longer counted in weeks, and 30 days are not yet
    full), and a date from 360 up to 365 days old is "0y ago".  Outside them,
    from one minute on, the count shown is at least 1. *)
Theorem formatRelativeTime_zero_counts (clock tv : Z) :
  let a := (clock - tv)%Z in
  let r := formatRelativeTime clock (VDate (Some tv)) in
  ((2419200000 <= a < 2592000000)%Z -> r = ago 0 "mo ago") /\
  ((31104000000 <= a < 31536000000)%Z -> r = ago 0 "y ago") /\
  ((60000 <= a < 2419200000)%Z \/ (2592000000 <= a < 31104000000)%Z \/
   (31536000000 <= a)%Z ->
   exists n unit, r = ago n unit /\ (1 <= n)%Z).
Proof.
  intros a r. unfold r. rewrite formatRelativeTime_valid. cbv zeta. fold a.
  split; [|split].
  - intros H. ltb_cases. unfold ago. do 3 f_equal. zdiv.
  - intros H. ltb_cases. unfold ago. do 3 f_equal. zdiv.
  - intros H. ltb_cases; eexists; eexists; (split; [reflexivity | zdiv]).
Qed.

Lemma formatRelativeTime_zero_counts_witness :
  (2419200000 <= 2500000000 - 0 < 2592000000)%Z /\
  formatRelativeTime 2500000000 (VDate (Some 0%Z)) = ago 0 "mo ago".
Proof.
  split; [lia|].
  apply (formatRelativeTime_zero_counts 2500000000 0). lia.
Defined.

(** ** getTopicSizeClass *)

Lemma ratio_ge (w m x : R) : 0 < m -> (x <= w / m <-> x * m <= w).
Proof.
  intros Hm. split; intros H.
  - assert (x * m <= w / m * m) by (apply Rmult_le_compat_r; lra).
    replace (w / m * m) with w in * by (field; lra). lra.
  - apply Rmult_le_reg_r with m; [exact Hm|].
    replace (w / m * m) with w by (field; lra). exact H.
Qed.

(** For a positive [maxWeight] and the exact quotient, the class is decided
    by the weight against 0.8, 0.6, 0.4 and 0.2 of [maxWeight]. *)
Lemma getTopicSizeClass_pos (w m : R) :
  0 < m ->
  getTopicSizeClass (Num w) (Num m) =
  if Rle_dec (0.8 * m) w then xl
  else if Rle_dec (0.6 * m) w then lg
  else if Rle_dec (0.4 * m) w then md
  else if Rle_dec (0.2 * m) w then sm
  else xs.
Proof.
  intros Hm. unfold getTopicSizeClass. cbn [Number.div Number.lift2].
  pose proof (ratio_ge w m 0.8 Hm). pose proof (ratio_ge w m 0.6 Hm).
  pose proof (ratio_ge w m 0.4 Hm). pose proof (ratio_ge w m 0.2 Hm).
  repeat match goal with
         | |- context [Number.geb (Num ?a) (Num ?b)] =>
             let E := fresh "E" in
             destruct (Number.geb (Num a) (Num b)) eqn:E;
             [apply geb_true in E | apply geb_false in E]
         end;
  repeat match goal with
         | |- context [Rle_dec ?a ?b] => destruct (Rle_dec a b)
         end; try reflexivity; exfalso; intuition lra.
Qed.

Lemma getTopicSizeClass_mono (m w1 w2 : R) :
  0 < m -> w1 <= w2 ->
  (size_rank (getTopicSizeClass (Num w1) (Num m)) <=
   size_rank (getTopicSizeClass (Num w2) (Num m)))%nat.
Proof.
  intros Hm H. rewrite !getTopicSizeClass_pos by exact Hm.
  repeat match goal with
         | |- context [Rle_dec ?a ?b] => destruct (Rle_dec a b)
         end; cbn; try lia; lra.
Qed.

(** With a positive [maxWeight], a larger weight never gets a smaller class;
    the weight [maxWeight] itself is [xl] and the weight 0 is [xs]; a weight
    that is [NaN] is [xs]. *)
Theorem size_class_monotone (m w1 w2 : R) :
  0 < m -> w1 <= w2 ->
  (size_rank (getTopicSizeClass (Num w1) (Num m)) <=
   size_rank (getTopicSizeClass (Num w2) (Num m)))%nat /\
  getTopicSizeClass (Num m) (Num m) = xl /\
  getTopicSizeClass (Num 0) (Num m) = xs /\
  getTopicSizeClass NaN (Num m) = xs.
Proof.
  intros Hm H. split; [apply getTopicSizeClass_mono; assumption|].
  split; [|split; [|reflexivity]]; rewrite getTopicSizeClass_pos by exact Hm;
    repeat match goal with
           | |- context [Rle_dec ?a ?b] => destruct (Rle_dec a b)
           end; try reflexivity; lra.
Qed.

Lemma size_class_monotone_witness :
  0 < 6 /\ 3 <= 5 /\
  (size_rank (getTopicSizeClass (Num 3) (Num 6)) <=
   size_rank (getTopicSizeClass (Num 5) (Num 6)))%nat.
Proof.
  split; [lra|]. split; [lra|].
  apply (size_class_monotone 6 3 5); lra.
Defined.

(** ** The weights of the returned topics *)

Lemma log10_nonneg (x : R) : 1 <= x -> 0 <= ln x / ln 10.
Proof.
  intros H. pose proof ln10_pos as L.
  assert (0 <= ln x).
  { destruct (Rle_lt_or_eq_dec 1 x H) as [Hlt | <-].
    - rewrite <- ln_1. apply Rlt_le, ln_increasing; lra.
    - rewrite ln_1. lra. }
  unfold Rdiv. apply Rmult_le_pos; [assumption|].
  apply Rlt_le, Rinv_0_lt_compat, L.
Qed.

Lemma weight_formula_ge_count (c : nat) (q b : R) :
  1 <= b -> INR c <= weight_formula c q b.
Proof.
  intros Hb. unfold weight_formula.
  pose proof (log10_nonneg (Rmax (q / INR c) 1) (Rmax_r _ _)) as L.
  pose proof (pos_INR c) as Hc.
  set (y := ln (Rmax (q / INR c) 1) / ln 10) in *.
  assert (H1 : 0 <= INR c * y) by (apply Rmult_le_pos; assumption).
  assert (H2 : INR c * (1 + y) * 1 <= INR c * (1 + y) * b).
  { apply Rmult_le_compat_l; [lra | exact Hb]. }
  lra.
Qed.

Lemma one_decimal_ge_nat (c : nat) (x : R) : INR c <= x -> INR c <= one_decimal x.
Proof.
  intros H. unfold one_decimal.
  destruct (base_Int_part (x * 10 + 1 / 2)) as [_ Hb].
  rewrite INR_IZR_INZ in *.
  assert (Hz : IZR (Z.of_nat c * 10 - 1) < IZR (Int_part (x * 10 + 1 / 2))).
  { rewrite minus_IZR, mult_IZR. lra. }
  apply lt_IZR in Hz.
  assert (Hz' : (Z.of_nat c * 10 <= Int_part (x * 10 + 1 / 2))%Z) by lia.
  apply IZR_le in Hz'. rewrite mult_IZR in Hz'. lra.
Qed.

Lemma qualifying_weight_ge_count (stories : list Story.t) (t : Topic.t) :
  In t (qualifying_topics stories) ->
  Topic.weight t = Num (weightR t) /\
  INR (Topic.count t) <= weightR t /\ 2 <= weightR t.
Proof.
  intros H. pose proof (qualifying_weight stories t H) as E.
  assert (Hc : (2 <= Topic.count t)%nat).
  { apply filter_In in H. destruct H as [_ H]. apply Nat.leb_le, H. }
  assert (Hw : INR (Topic.count t) <= weightR t).
  { unfold weightR. rewrite E. apply one_decimal_ge_nat, weight_formula_ge_count.
    destruct (Topic.isTech t); lra. }
  split; [eapply weight_is_Num, E|]. split; [exact Hw|].
  apply le_INR in Hc. cbn [INR] in Hc. lra.
Qed.

Lemma returned_is_qualifying (stories : list Story.t) (limit : option Z) (t : Topic.t) :
  In t (extractTrendingTopics stories limit) -> In t (qualifying_topics stories).
Proof.
  intros H. unfold extractTrendingTopics in H.
  apply Array_slice0_In in H. unfold ranked_topics in H.
  apply Array_sort_In in H. exact H.
Qed.

(** The weight of a returned topic is a number, not [NaN]: the formula
    [count * (1 + log10(max(avgPoints, 1))) * techBonus], on the number of
    stories that contain the word and the average of their points ([null]
    points counting 0), rounded to one decimal.  It is at least the count,
    hence at least 2; [isTech] tells whether the word is a tech keyword. *)
Theorem returned_weight (stories : list Story.t) (limit : option Z) (t : Topic.t) :
  In t (extractTrendingTopics stories limit) ->
  let c := stories_with (Topic.word t) stories in
  let avgPoints := points_with (Topic.word t) stories / INR c in
  let techBonus := if has TECH_KEYWORDS (Topic.word t) then 1.5 else 1 in
  Topic.count t = c /\
  Topic.isTech t = has TECH_KEYWORDS (Topic.word t) /\
  Topic.weight t =
    Num (one_decimal (INR c * (1 + ln (Rmax avgPoints 1) / ln 10) * techBonus)) /\
  INR c <= weightR t /\ 2 <= weightR t.
Proof.
  intros H c avgPoints techBonus.
  pose proof (returned_is_qualifying stories limit t H) as Hq.
  destruct (qualifying_weight_ge_count stories t Hq) as (_ & Hw & H2).
  pose proof (qualifying_weight stories t Hq) as Ew.
  apply filter_In in Hq. destruct Hq as [Hq _].
  apply in_map_iff in Hq. destruct Hq as ([w d] & <- & Hin).
  destruct (wordCounts_entry stories w d Hin) as (Ec & _ & _).
  cbn [to_topic Topic.word Topic.count Topic.isTech] in *.
  fold c in Ec. rewrite Ec in *.
  repeat split; try assumption; try reflexivity.
Qed.

Lemma foo_is_returned :
  In {| Topic.word := "foo"; Topic.count := 2; Topic.weight := Num 6;
        Topic.isTech := false |}
     (extractTrendingTopics
        [ {| Story.title := Some "foo"%string; Story.points := Some (Num 100) |};
          {| Story.title := Some "foo bar"%string; Story.points := Some (Num 100) |};
          {| Story.title := Some "bar"%string; Story.points := Some (Num 102) |} ]
        None).
Proof.
  unfold extractTrendingTopics, ranked_topics. rewrite foo_bar_counts.
  cbn [map]. rewrite foo_topic, bar_topic.
  cbn [filter Nat.leb Topic.count Array_sort fold_right sort_insert Topic.weight
       Number.sub Number.lift2].
  cmp_eval. left. reflexivity.
Qed.

Lemma returned_weight_witness :
  let stories :=
    [ {| Story.title := Some "foo"%string; Story.points := Some (Num 100) |};
      {| Story.title := Some "foo bar"%string; Story.points := Some (Num 100) |};
      {| Story.title := Some "bar"%string; Story.points := Some (Num 102) |} ] in
  let t := {| Topic.word := "foo"; Topic.count := 2; Topic.weight := Num 6;
              Topic.isTech := false |} in
  In t (extractTrendingTopics stories None) /\ 2 <= weightR t.
Proof.
  cbv zeta. split; [exact foo_is_returned|].
  apply (returned_weight _ None _ foo_is_returned).
Defined.

(** ** updateTrendingTopics *)

Lemma StronglySorted_firstn {A : Type} (R : A -> A -> Prop) (n : nat) (l : list A) :
  StronglySorted R l -> StronglySorted R (firstn n l).
Proof.
  intros H. revert n. induction H as [|a l H IH Ha]; intros [|n]; cbn;
    try constructor.
  - apply IH.
  - rewrite Forall_forall in *. intros x Hx. apply Ha.
    apply (firstn_incl n l x Hx).
Qed.

Lemma ranked_sorted (stories : list Story.t) :
  StronglySorted (fun a b => weightR b <= weightR a) (ranked_topics stories).
Proof.
  apply Sorted_StronglySorted; [apply by_weight_transitive|].
  apply (Array_sort_Sorted (qualifying_topics stories)), qualifying_Nums.
Qed.

Lemma returned_sorted (stories : list Story.t) (limit : option Z) :
  StronglySorted (fun a b => weightR b <= weightR a)
                 (extractTrendingTopics stories limit).
Proof.
  unfold extractTrendingTopics, Array_slice0.
  apply StronglySorted_firstn, ranked_sorted.
Qed.

(** In the cloud, the topics are those of [extractTrendingTopics] with limit
    15; the first one is drawn [xl], and along the list the size class never
    grows. *)
Theorem cloud_classes_descend (stories : list Story.t) :
  let cloud := updateTrendingTopics_classes stories in
  map fst cloud = extractTrendingTopics stories (Some 15%Z) /\
  (forall t c rest, cloud = (t, c) :: rest -> c = xl) /\
  StronglySorted (fun a b => (size_rank (snd b) <= size_rank (snd a))%nat) cloud.
Proof.
  intros cloud. unfold cloud, updateTrendingTopics_classes.
  pose proof (returned_sorted stories (Some 15%Z)) as Hs.
  assert (Hq : forall t, In t (extractTrendingTopics stories (Some 15%Z)) ->
                    Topic.weight t = Num (weightR t) /\ 2 <= weightR t).
  { intros t Ht. apply returned_is_qualifying in Ht.
    destruct (qualifying_weight_ge_count stories t Ht) as (E & _ & H2).
    split; assumption. }
  destruct (extractTrendingTopics stories (Some 15%Z)) as [|t0 topics] eqn:E.
  - cbn. repeat split; [intros; discriminate | constructor].
  - cbv zeta. destruct (Hq t0 (or_introl eq_refl)) as [E0 H0].
    rewrite E0. split; [|split].
    + rewrite map_map. cbn [fst]. apply map_id.
    + intros t c rest [= <- <- _]. rewrite E0.
      rewrite getTopicSizeClass_pos by lra.
      destruct (Rle_dec (0.8 * weightR t0) (weightR t0)); [reflexivity|lra].
    + assert (G : forall l : list Topic.t,
                 (forall t, In t l -> Topic.weight t = Num (weightR t)) ->
                 StronglySorted (fun a b => weightR b <= weightR a) l ->
                 StronglySorted
                   (fun a b => (size_rank (snd b) <= size_rank (snd a))%nat)
                   (map (fun topic =>
                           (topic, getTopicSizeClass (Topic.weight topic)
                                                     (Num (weightR t0)))) l)).
      { intros l Hl Hsl. induction Hsl as [|a l Hsl IH Ha]; cbn [map].
        - constructor.
        - constructor.
          + apply IH. intros t Ht. apply Hl. right. exact Ht.
          + rewrite Forall_forall in *. intros x Hx.
            apply in_map_iff in Hx. destruct Hx as (b & <- & Hb).
            cbn [snd]. rewrite (Hl a (or_introl eq_refl)).
            rewrite (Hl b (or_intror Hb)).
            apply getTopicSizeClass_mono; [lra|]. apply Ha, Hb. }
      apply G; [|exact Hs]. intros t Ht. apply Hq, Ht.
Qed.

(** ** The words of the returned topics *)

(** The entries of [wordCounts]: one for each word that some story contains,
    holding the number of these stories and the sum of their points. *)
Lemma wordCounts_In (stories : list Story.t) (w : string) (d : Data.t) :
  In (w, d) (wordCounts_of stories) <->
  (1 <= stories_with w stories)%nat /\
  d = {| Data.count := stories_with w stories;
         Data.points := Num (points_with w stories) |}.
Proof.
  split.
  - intros H. destruct (wordCounts_entry stories w d H) as (Ec & Ep & H1).
    split; [exact H1|]. destruct d as [c q]. cbn in Ec, Ep. subst. reflexivity.
  - intros [H1 ->].
    pose proof (count_stories_count stories [] w) as Hc.
    fold (wordCounts_of stories) in Hc. cbn in Hc.
    unfold Map_count in Hc.
    destruct (Map_get (wordCounts_of stories) w) as [d|] eqn:E; [|lia].
    apply Map_get_In in E.
    destruct (wordCounts_entry stories w d E) as (Ec & Ep & _).
    destruct d as [c q]. cbn in Ec, Ep. subst. exact E.
Qed.

Lemma qualifying_In (stories : list Story.t) (t : Topic.t) :
  In t (qualifying_topics stories) <->
  (2 <= stories_with (Topic.word t) stories)%nat /\
  t = to_topic (Topic.word t,
                {| Data.count := stories_with (Topic.word t) stories;
                   Data.points := Num (points_with (Topic.word t) stories) |}).
Proof.
  unfold qualifying_topics. rewrite filter_In, in_map_iff. split.
  - intros [([w d] & <- & Hin) Hc]. apply Nat.leb_le in Hc.
    apply wordCounts_In in Hin. destruct Hin as [H1 ->].
    cbn [to_topic Topic.word Topic.count] in *. split; [exact Hc | reflexivity].
  - intros [H2 Et]. split.
    + eexists. split; [symmetry; exact Et|].
      apply wordCounts_In. split; [lia | reflexivity].
    + rewrite Et. cbn [to_topic Topic.count]. apply Nat.leb_le, H2.
Qed.

Lemma qualifying_words (stories : list Story.t) :
  NoDup (map Topic.word (qualifying_topics stories)).
Proof.
  destruct (wordCounts_inv stories) as [_ Hk]. unfold qualifying_topics, keys in *.
  induction (wordCounts_of stories) as [|[w d] m IH]; cbn [map filter].
  - constructor.
  - inversion Hk as [|? ? Hw Hm]; subst.
    destruct (Nat.leb 2 (Topic.count (to_topic (w, d)))); [|apply IH, Hm].
    cbn [map]. constructor; [|apply IH, Hm].
    cbn [to_topic Topic.word]. intros Hin. apply Hw.
    apply in_map_iff in Hin. destruct Hin as (t & Et & Ht).
    apply filter_In in Ht. destruct Ht as [Ht _].
    apply in_map_iff in Ht. destruct Ht as ([w' d'] & <- & Hin).
    cbn in Et. subst w'. apply (in_map fst) in Hin. exact Hin.
Qed.

Lemma NoDup_firstn {A : Type} (n : nat) (l : list A) :
  NoDup l -> NoDup (firstn n l).
Proof.
  intros H. revert n. induction H as [|a l Ha H IH]; intros [|n]; cbn;
    try constructor.
  - intros Hin. apply Ha. apply (firstn_incl n l a Hin).
  - apply IH.
Qed.

Lemma firstn_map {A B : Type} (f : A -> B) (n : nat) (l : list A) :
  firstn n (map f l) = map f (firstn n l).
Proof.
  revert l. induction n as [|n IH]; intros [|a l]; cbn; try reflexivity.
  f_equal. apply IH.
Qed.

(** Before the slice there is exactly one topic for each word that at least
    two stories contain; no word is returned twice; and when the limit is not
    below the number of these words, all of them are returned. *)
Theorem topics_complete (stories : list Story.t) (limit : option Z) :
  (forall w, (2 <= stories_with w stories)%nat <->
             exists t, In t (ranked_topics stories) /\ Topic.word t = w) /\
  NoDup (map Topic.word (ranked_topics stories)) /\
  NoDup (map Topic.word (extractTrendingTopics stories limit)) /\
  ((Z.of_nat (List.length (qualifying_topics stories)) <= limit_or_15 limit)%Z ->
   extractTrendingTopics stories limit = ranked_topics stories).
Proof.
  assert (P : Permutation (ranked_topics stories) (qualifying_topics stories))
    by apply Array_sort_perm.
  assert (N : NoDup (map Topic.word (ranked_topics stories))).
  { eapply Permutation_NoDup; [|apply qualifying_words].
    apply Permutation_map, Permutation_sym, P. }
  split; [|split; [exact N|split]].
  - intros w. split.
    + intros H.
      exists (to_topic (w, {| Data.count := stories_with w stories;
                              Data.points := Num (points_with w stories) |})).
      split; [|reflexivity].
      apply (Permutation_in _ (Permutation_sym P)).
      apply qualifying_In. cbn [to_topic Topic.word]. split; [exact H | reflexivity].
    + intros (t & Ht & <-). apply (Permutation_in _ P) in Ht.
      apply qualifying_In in Ht. apply Ht.
  - unfold extractTrendingTopics, Array_slice0.
    rewrite <- firstn_map. apply NoDup_firstn, N.
  - intros H.
    assert (E : extractTrendingTopics stories limit =
                Array_slice0 (ranked_topics stories) (limit_or_15 limit)).
    { unfold extractTrendingTopics, limit_or_15. destruct limit; reflexivity. }
    rewrite E, Array_slice0_nonneg by lia.
    apply firstn_all_of. rewrite (Permutation_length P). lia.
Qed.

Lemma filter_perm {A : Type} (f : A -> bool) (l l' : list A) :
  Permutation l l' -> Permutation (filter f l) (filter f l').
Proof.
  intros H. induction H as [| x l l' H IH | x y l | l l' l'' H1 IH1 H2 IH2];
    cbn [filter].
  - constructor.
  - destruct (f x); [apply perm_skip|]; exact IH.
  - destruct (f x), (f y); try apply Permutation_refl. apply perm_swap.
  - eapply perm_trans; eassumption.
Qed.

Lemma sum_perm (l l' : list R) :
  Permutation l l' -> fold_right Rplus 0 l = fold_right Rplus 0 l'.
Proof.
  intros H. induction H; cbn [fold_right]; try lra; congruence.
Qed.

Lemma stories_with_perm (w : string) (stories stories' : list Story.t) :
  Permutation stories stories' ->
  stories_with w stories = stories_with w stories' /\
  points_with w stories = points_with w stories'.
Proof.
  intros H. unfold stories_with, points_with.
  pose proof (filter_perm (mentions w) _ _ H) as Hf. split.
  - apply Permutation_length, Hf.
  - apply sum_perm, Permutation_map, Hf.
Qed.

(** The order of the stories in the batch decides only the order of topics
    of equal weight: a rearranged batch gives the same topics, with the same
    counts and weights, before the slice. *)
Theorem topics_of_rearranged_batch (stories stories' : list Story.t) :
  Permutation stories stories' ->
  Permutation (ranked_topics stories) (ranked_topics stories') /\
  (forall t, In t (ranked_topics stories) <-> In t (ranked_topics stories')).
Proof.
  intros H.
  assert (Q : forall t, In t (qualifying_topics stories) <->
                        In t (qualifying_topics stories')).
  { intros t. rewrite !qualifying_In.
    destruct (stories_with_perm (Topic.word t) _ _ H) as [-> ->]. tauto. }
  assert (P : Permutation (qualifying_topics stories) (qualifying_topics stories')).
  { apply NoDup_Permutation.
    - eapply NoDup_map_inv, qualifying_words.
    - eapply NoDup_map_inv, qualifying_words.
    - exact Q. }
  split.
  - eapply perm_trans; [apply Array_sort_perm|].
    eapply perm_trans; [exact P|]. apply Permutation_sym, Array_sort_perm.
  - intros t. unfold ranked_topics. rewrite !Array_sort_In. apply Q.
Qed.

Lemma topics_of_rearranged_batch_witness :
  let a := {| Story.title := Some "rust foo"%string; Story.points := Some (Num 11) |} in
  let b := {| Story.title := Some "rust bar"%string; Story.points := Some (Num 5) |} in
  Permutation [a; b] [b; a] /\
  Permutation (ranked_topics [a; b]) (ranked_topics [b; a]).
Proof.
  intros a b. split; [apply perm_swap|].
  exact (proj1 (topics_of_rearranged_batch [a; b] [b; a] (perm_swap b a []))).
Defined.

(** ** Batches and limits *)

Lemma count_story_untitled (m : Map) (story : Story.t) :
  titled story = false -> count_story m story = m.
Proof.
  unfold titled, count_story. destruct (Story.title story) as [title|]; [|reflexivity].
  destruct (String.eqb title EmptyString); [reflexivity | discriminate].
Qed.

Lemma count_stories_titled (stories : list Story.t) (m : Map) :
  fold_left count_story (filter titled stories) m = fold_left count_story stories m.
Proof.
  revert m. induction stories as [|s stories IH]; intros m; cbn [filter fold_left].
  - reflexivity.
  - destruct (titled s) eqn:E; cbn [fold_left].
    + apply IH.
    + rewrite (count_story_untitled m s E). apply IH.
Qed.

Lemma filter_titled_none (stories : list Story.t) :
  (forall s, In s stories -> titled s = false) -> filter titled stories = [].
Proof.
  induction stories as [|s l IH]; intros H; [reflexivity|]. cbn [filter].
  rewrite (H s (or_introl eq_refl)). apply IH.
  intros x Hx. apply H. right. exact Hx.
Qed.

(** Stories whose title is missing or empty play no part: removing them from
    the batch does not change the result.  An empty batch gives no topic. *)
Theorem untitled_stories_are_skipped (stories : list Story.t) (limit : option Z) :
  extractTrendingTopics (filter titled stories) limit =
    extractTrendingTopics stories limit /\
  ((forall s, In s stories -> titled s = false) ->
   extractTrendingTopics stories limit = []) /\
  extractTrendingTopics [] limit = [].
Proof.
  assert (E : wordCounts_of (filter titled stories) = wordCounts_of stories)
    by apply count_stories_titled.
  assert (N : extractTrendingTopics [] limit = []).
  { unfold extractTrendingTopics, Array_slice0. apply firstn_nil. }
  split; [|split; [|exact N]].
  - unfold extractTrendingTopics, ranked_topics. rewrite E. reflexivity.
  - intros H.
    pose proof (filter_titled_none stories H) as F.
    unfold extractTrendingTopics, ranked_topics in *.
    rewrite <- E, F. exact N.
Qed.

(** The limit: 0 gives no topic; a negative limit [-k] drops the last [k]
    topics of the ranking; a limit that is not below the length of the
    ranking gives all of it; no limit is the limit 15. *)
Theorem limit_edges (stories : list Story.t) (l : Z) :
  let ranked := ranked_topics stories in
  extractTrendingTopics stories (Some 0%Z) = [] /\
  ((l < 0)%Z ->
   extractTrendingTopics stories (Some l) =
     firstn (List.length ranked - Z.to_nat (- l)) ranked) /\
  ((Z.of_nat (List.length ranked) <= l)%Z ->
   extractTrendingTopics stories (Some l) = ranked) /\
  extractTrendingTopics stories None = extractTrendingTopics stories (Some 15%Z).
Proof.
  intros ranked. split; [|split; [|split]].
  - unfold extractTrendingTopics. rewrite Array_slice0_nonneg by lia. reflexivity.
  - intros H. unfold extractTrendingTopics, Array_slice0. fold ranked.
    destruct (Z.ltb_spec l 0) as [_ | H0]; [|lia]. f_equal. lia.
  - intros H. unfold extractTrendingTopics. fold ranked.
    rewrite Array_slice0_nonneg by lia. apply firstn_all_of. lia.
  - reflexivity.
Qed.

(** ** Upper and lower case *)

Lemma lower_char_idempotent (c : ascii) : lower_char (lower_char c) = lower_char c.
Proof.
  destruct c as [[] [] [] [] [] [] [] []]; reflexivity.
Qed.

Lemma toLowerCase_idempotent (s : string) : toLowerCase (toLowerCase s) = toLowerCase s.
Proof.
  induction s as [|c s IH]; cbn; [reflexivity|].
  rewrite lower_char_idempotent, IH. reflexivity.
Qed.

Lemma words_of_lower (title : string) : words_of (toLowerCase title) = words_of title.
Proof. unfold words_of. rewrite toLowerCase_idempotent. reflexivity. Qed.

Lemma fold_count_word_points (s s' : Story.t) (ws : list string) (m : Map) :
  Story.points s = Story.points s' ->
  fold_left (count_word s) ws m = fold_left (count_word s') ws m.
Proof.
  intros H. revert m. induction ws as [|w ws IH]; intros m; cbn [fold_left].
  - reflexivity.
  - rewrite IH. unfold count_word. rewrite H. reflexivity.
Qed.

Lemma count_story_lower (m : Map) (story : Story.t) :
  count_story m (lower_title story) = count_story m story.
Proof.
  rewrite !count_story_unfold. unfold lower_title at 1. cbn [Story.title].
  destruct (Story.title story) as [title|]; cbn [option_map]; [|reflexivity].
  rewrite words_of_lower. apply fold_count_word_points. reflexivity.
Qed.

(** Upper and lower case make no difference: with every title put in lower
    case the result is the same, so two batches whose titles differ only in
    the case of their letters give the same topics. *)
Theorem case_insensitive (stories stories' : list Story.t) (limit : option Z) :
  extractTrendingTopics (map lower_title stories) limit =
    extractTrendingTopics stories limit /\
  (map lower_title stories = map lower_title stories' ->
   extractTrendingTopics stories limit = extractTrendingTopics stories' limit).
Proof.
  assert (E : forall l, extractTrendingTopics (map lower_title l) limit =
                        extractTrendingTopics l limit).
  { intros l.
    assert (W : forall m, fold_left count_story (map lower_title l) m =
                          fold_left count_story l m).
    { induction l as [|s l IH]; intros m; cbn [map fold_left]; [reflexivity|].
      rewrite count_story_lower. apply IH. }
    unfold extractTrendingTopics, ranked_topics, wordCounts_of.
    rewrite W. reflexivity. }
  split; [apply E|].
  intros H. rewrite <- (E stories), <- (E stories'), H. reflexivity.
Qed.

(** ** The shape of a word *)

(** After lower-casing and the replacement of punctuation, a character is
    white space or one of [a-z0-9_-]. *)
Lemma cleaned_char (c0 : ascii) :
  let c := lower_char c0 in
  let c' := if is_word c || is_space c || is_hyphen c then c else " "%char in
  is_space c' || is_token_char c' = true.
Proof.
  destruct c0 as [[] [] [] [] [] [] [] []]; reflexivity.
Qed.

Lemma cleaned_string (title : string) :
  string_forall (fun c => is_space c || is_token_char c)
                (replace_punct (toLowerCase title)) = true.
Proof.
  induction title as [|c0 s IH]; cbn [toLowerCase replace_punct string_forall].
  - reflexivity.
  - rewrite IH, andb_true_r. apply cleaned_char.
Qed.

Lemma rev_string_forall (p : ascii -> bool) (s acc : string) :
  string_forall p (rev_string acc s) = string_forall p acc && string_forall p s.
Proof.
  revert acc. induction s as [|c s IH]; intros acc; cbn [rev_string string_forall].
  - rewrite andb_true_r. reflexivity.
  - rewrite IH. cbn [string_forall].
    destruct (p c), (string_forall p acc), (string_forall p s); reflexivity.
Qed.

(** The pieces of [split] are made of the characters that are not white
    space. *)
Lemma split_ws_from_forall (p : ascii -> bool) (s cur : string) (in_ws : bool) :
  string_forall p cur = true ->
  string_forall (fun c => is_space c || p c) s = true ->
  Forall (fun w => string_forall p w = true) (split_ws_from cur in_ws s).
Proof.
  revert cur in_ws. induction s as [|c s IH]; intros cur in_ws Hc Hs;
    cbn [split_ws_from].
  - constructor; [|constructor]. rewrite rev_string_forall, Hc. reflexivity.
  - cbn [string_forall] in Hs. apply andb_true_iff in Hs. destruct Hs as [H1 H2].
    destruct (is_space c) eqn:E.
    + destruct in_ws.
      * apply IH; [reflexivity | exact H2].
      * constructor; [|apply IH; [reflexivity | exact H2]].
        rewrite rev_string_forall, Hc. reflexivity.
    + apply IH; [|exact H2]. cbn [string_forall]. cbn [orb] in H1.
      rewrite H1, Hc. reflexivity.
Qed.

Lemma token_shape (title w : string) :
  In w (words_of title) ->
  (2 <= String.length w <= 20)%nat /\
  has STOP_WORDS w = false /\
  digits_only w = false /\
  string_forall is_token_char w = true.
Proof.
  unfold words_of. intros H. apply filter_In in H. destruct H as [H K].
  unfold keep_word in K.
  apply andb_true_iff in K. destruct K as [K K4].
  apply andb_true_iff in K. destruct K as [K K3].
  apply andb_true_iff in K. destruct K as [K1 K2].
  apply Nat.leb_le in K1. apply Nat.leb_le in K2.
  apply negb_true_iff in K3. apply negb_true_iff in K4.
  repeat split; try assumption.
  pose proof (split_ws_from_forall is_token_char
                (replace_punct (toLowerCase title)) EmptyString false
                eq_refl (cleaned_string title)) as F.
  rewrite Forall_forall in F. apply F, H.
Qed.

Lemma mentioned_word (stories : list Story.t) (w : string) :
  (1 <= stories_with w stories)%nat ->
  exists story title,
    In story stories /\ Story.title story = Some title /\ In w (words_of title).
Proof.
  unfold stories_with. intros H.
  destruct (filter (mentions w) stories) as [|s l] eqn:E; [cbn in H; lia|].
  assert (Hs : In s (filter (mentions w) stories)) by (rewrite E; left; reflexivity).
  apply filter_In in Hs. destruct Hs as [Hin Hm].
  unfold mentions in Hm. destruct (Story.title s) as [title|] eqn:Et; [|discriminate].
  exists s, title. split; [exact Hin|]. split; [exact Et|].
  apply has_In, Hm.
Qed.

(** The word of a returned topic is a token of the title of a story of the
    batch: it has 2 to 20 characters, all of them lower-case letters, digits,
    underscores or hyphens; it is not a stop word and not a number. *)
Theorem returned_word_shape (stories : list Story.t) (limit : option Z) (t : Topic.t) :
  In t (extractTrendingTopics stories limit) ->
  let w := Topic.word t in
  (exists story title,
     In story stories /\ Story.title story = Some title /\ In w (words_of title)) /\
  (2 <= String.length w <= 20)%nat /\
  has STOP_WORDS w = false /\
  digits_only w = false /\
  string_forall is_token_char w = true.
Proof.
  intros H w.
  destruct (topic_of_entry stories limit t H) as (_ & d & Hin & _).
  destruct (wordCounts_entry stories _ d Hin) as (_ & _ & H1).
  destruct (mentioned_word stories _ H1) as (story & title & Hs & Et & Hw).
  split; [exists story, title; repeat split; assumption|].
  apply (token_shape title), Hw.
Qed.

Lemma returned_word_shape_witness :
  let stories :=
    [ {| Story.title := Some "foo"%string; Story.points := Some (Num 100) |};
      {| Story.title := Some "foo bar"%string; Story.points := Some (Num 100) |};
      {| Story.title := Some "bar"%string; Story.points := Some (Num 102) |} ] in
  let t := {| Topic.word := "foo"; Topic.count := 2; Topic.weight := Num 6;
              Topic.isTech := false |} in
  In t (extractTrendingTopics stories None) /\
  string_forall is_token_char (Topic.word t) = true.
Proof.
  cbv zeta. split; [exact foo_is_returned|].
  apply (returned_word_shape _ None _ foo_is_returned).
Defined.

(** ** Points and weight *)

Lemma one_decimal_le (x y : R) : x <= y -> one_decimal x <= one_decimal y.
Proof.
  intros H. unfold one_decimal.
  assert (Hi : (Int_part (x * 10 + 1 / 2) <= Int_part (y * 10 + 1 / 2))%Z)
    by (apply Int_part_le; lra).
  apply IZR_le in Hi. lra.
Qed.

Lemma one_decimal_tenths (z : Z) : one_decimal (IZR z / 10) = IZR z / 10.
Proof.
  unfold one_decimal. f_equal. f_equal. symmetry.
  apply Int_part_spec. lra.
Qed.

Lemma log10_le (x y : R) : 1 <= x <= y -> ln x / ln 10 <= ln y / ln 10.
Proof.
  intros [Hx Hy]. pose proof ln10_pos as L.
  assert (ln x <= ln y).
  { destruct (Rle_lt_or_eq_dec x y Hy) as [Hlt | <-]; [|lra].
    apply Rlt_le, ln_increasing; lra. }
  unfold Rdiv. apply Rmult_le_compat_r; [|assumption].
  apply Rlt_le, Rinv_0_lt_compat, L.
Qed.

Lemma weight_formula_le (c : nat) (q1 q2 b : R) :
  (1 <= c)%nat -> 0 <= b -> q1 <= q2 ->
  weight_formula c q1 b <= weight_formula c q2 b.
Proof.
  intros Hc Hb Hq. unfold weight_formula.
  assert (H0 : 1 <= INR c) by (apply le_INR in Hc; cbn [INR] in Hc; lra).
  assert (Hd : q1 / INR c <= q2 / INR c).
  { unfold Rdiv. apply Rmult_le_compat_r; [|exact Hq].
    apply Rlt_le, Rinv_0_lt_compat. lra. }
  assert (Hm : 1 <= Rmax (q1 / INR c) 1 <= Rmax (q2 / INR c) 1).
  { split; [apply Rmax_r|]. apply Rmax_lub.
    - eapply Rle_trans; [exact Hd | apply Rmax_l].
    - apply Rmax_r. }
  pose proof (log10_le _ _ Hm) as Hl.
  pose proof (log10_nonneg _ (proj1 Hm)) as Hn.
  apply Rmult_le_compat_r; [exact Hb|].
  apply Rmult_le_compat_l; lra.
Qed.

(** With the count fixed, more points never give a word a smaller weight,
    before or after the rounding; and points that average to 1 or less per
    story do not matter: the unrounded weight is then the count times the
    tech bonus. *)
Theorem weight_monotone_in_points (w : string) (c : nat) (q1 q2 : R) :
  (1 <= c)%nat -> q1 <= q2 ->
  let t1 := to_topic (w, {| Data.count := c; Data.points := Num q1 |}) in
  let t2 := to_topic (w, {| Data.count := c; Data.points := Num q2 |}) in
  (exists x1 x2,
     weight_of w {| Data.count := c; Data.points := Num q1 |} = Num x1 /\
     weight_of w {| Data.count := c; Data.points := Num q2 |} = Num x2 /\
     x1 <= x2) /\
  Topic.weight t1 = Num (weightR t1) /\
  Topic.weight t2 = Num (weightR t2) /\
  weightR t1 <= weightR t2 /\
  (q2 <= INR c ->
   weight_of w {| Data.count := c; Data.points := Num q2 |} =
     Num (INR c * (if has TECH_KEYWORDS w then 1.5 else 1))).
Proof.
  intros Hc Hq t1 t2.
  set (b := if has TECH_KEYWORDS w then 1.5 else 1).
  assert (Hb : 0 <= b) by (unfold b; destruct (has TECH_KEYWORDS w); lra).
  pose proof (weight_formula_le c q1 q2 b Hc Hb Hq) as Hle.
  assert (E1 : weight_of w {| Data.count := c; Data.points := Num q1 |} =
               Num (weight_formula c q1 b)) by (apply weight_of_formula, Hc).
  assert (E2 : weight_of w {| Data.count := c; Data.points := Num q2 |} =
               Num (weight_formula c q2 b)) by (apply weight_of_formula, Hc).
  split; [do 2 eexists; repeat split; [exact E1 | exact E2 | exact Hle]|].
  unfold t1, t2, weightR, to_topic. cbn [Topic.weight].
  rewrite E1, E2, !round1_one_decimal.
  split; [reflexivity|]. split; [reflexivity|].
  split; [apply one_decimal_le, Hle|].
  intros Hs. f_equal. unfold weight_formula.
  assert (H0 : 1 <= INR c) by (apply le_INR in Hc; cbn [INR] in Hc; lra).
  assert (Hd : q2 / INR c <= 1).
  { apply Rmult_le_reg_r with (INR c); [lra|].
    replace (q2 / INR c * INR c) with q2 by (field; lra). lra. }
  rewrite Rmax_right by exact Hd. rewrite ln_1. fold b.
  unfold Rdiv. rewrite Rmult_0_l. lra.
Qed.

Lemma weight_monotone_in_points_witness :
  (1 <= 2)%nat /\ 10 <= 20 /\
  weightR (to_topic ("rust"%string, {| Data.count := 2; Data.points := Num 10 |})) <=
  weightR (to_topic ("rust"%string, {| Data.count := 2; Data.points := Num 20 |})).
Proof.
  split; [lia|]. split; [lra|].
  apply (weight_monotone_in_points "rust" 2 10 20); [lia | lra].
Defined.

Lemma points_with_null (stories : list Story.t) (w : string) :
  (forall s, In s stories -> Story.points s = None) -> points_with w stories = 0.
Proof.
  unfold points_with. induction stories as [|s l IH]; intros H; [reflexivity|].
  cbn [filter]. assert (Hl : forall x, In x l -> Story.points x = None)
    by (intros x Hx; apply H; right; exact Hx).
  destruct (mentions w s); [|apply IH, Hl].
  cbn [map fold_right]. rewrite (IH Hl).
  unfold pointsR. rewrite (H s (or_introl eq_refl)). cbn. lra.
Qed.

(** In a batch without points (the articles of NewsAPI carry [null]) the
    weight of a returned topic is its count, times 1.5 for a tech keyword:
    the ranking is by the number of stories alone. *)
Theorem weight_without_points (stories : list Story.t) (limit : option Z) (t : Topic.t) :
  (forall s, In s stories -> Story.points s = None) ->
  In t (extractTrendingTopics stories limit) ->
  Topic.weight t = Num (INR (Topic.count t) * (if Topic.isTech t then 1.5 else 1)).
Proof.
  intros Hn H.
  pose proof (returned_is_qualifying stories limit t H) as Hq.
  rewrite (qualifying_weight stories t Hq).
  rewrite (points_with_null stories _ Hn).
  unfold weight_formula.
  replace (0 / INR (Topic.count t)) with 0 by (unfold Rdiv; lra).
  rewrite Rmax_right by lra. rewrite ln_1.
  replace (INR (Topic.count t) * (1 + 0 / ln 10)) with (INR (Topic.count t))
    by (unfold Rdiv; lra).
  f_equal. rewrite INR_IZR_INZ.
  destruct (Topic.isTech t).
  - replace (IZR (Z.of_nat (Topic.count t)) * 1.5)
      with (IZR (Z.of_nat (Topic.count t) * 15) / 10) by (rewrite mult_IZR; lra).
    apply one_decimal_tenths.
  - replace (IZR (Z.of_nat (Topic.count t)) * 1)
      with (IZR (Z.of_nat (Topic.count t) * 10) / 10) by (rewrite mult_IZR; lra).
    apply one_decimal_tenths.
Qed.

Lemma null_batch_topic :
  extractTrendingTopics
    [ {| Story.title := Some "foo"%string; Story.points := None |};
      {| Story.title := Some "foo"%string; Story.points := None |} ] None =
  [ to_topic ("foo"%string, {| Data.count := 2; Data.points := Num (0 + 0 + 0) |}) ].
Proof.
  unfold extractTrendingTopics, ranked_topics.
  assert (E : wordCounts_of
                [ {| Story.title := Some "foo"%string; Story.points := None |};
                  {| Story.title := Some "foo"%string; Story.points := None |} ] =
              [ ("foo"%string, {| Data.count := 2; Data.points := Num (0 + 0 + 0) |}) ])
    by reflexivity.
  rewrite E. reflexivity.
Qed.

Lemma weight_without_points_witness :
  let stories :=
    [ {| Story.title := Some "foo"%string; Story.points := None |};
      {| Story.title := Some "foo"%string; Story.points := None |} ] in
  let t := to_topic ("foo"%string,
                     {| Data.count := 2; Data.points := Num (0 + 0 + 0) |}) in
  (forall s, In s stories -> Story.points s = None) /\
  In t (extractTrendingTopics stories None) /\
  Topic.weight t = Num (INR (Topic.count t) * (if Topic.isTech t then 1.5 else 1)).
Proof.
  intros stories t.
  assert (Hn : forall s, In s stories -> Story.points s = None).
  { intros s [<- | [<- | []]]; reflexivity. }
  assert (Hin : In t (extractTrendingTopics stories None)).
  { unfold stories. rewrite null_batch_topic. left. reflexivity. }
  split; [exact Hn|]. split; [exact Hin|].
  exact (weight_without_points stories None t Hn Hin).
Defined.
